(** * model-stress.py: the HttpBenchmark load generator

    A shallow embedding of [src/model-stress.py] and the properties its
    specification states about it.

    Modelling choices, once and for all:
    - Python [int] is [Z]; the counters of [HttpBenchmark] are unbounded.
    - Python [float] seconds ([time.monotonic()], the elapsed durations, the
      averages) are exact rationals [Q]; rounding is not modelled, and
      equalities between times are stated with [==].
    - A [str] is a [string] whose characters are code points below 256.
    - asyncio is cooperative: a task runs without interruption from one
      [await] to the next.  [make_request] suspends at two places only
      ([async with semaphore] and [await client.post]), so a work item is two
      atomic segments, and a run is an interleaving of segments chosen by the
      event loop and the network (a list of [action]s).
    - What the program does to the outside (clock reads, POSTs, tracebacks,
      progress-bar updates) is recorded in a log of [event]s. *)

From Stdlib Require Import ZArith QArith List String Ascii Bool Lia.
From stdpp Require Import base list.
Import ListNotations.

Local Open Scope Z_scope.

(** * The model *)

(** ** Text: [str.strip], universal newlines, iteration over a file *)

Module Text.

Definition LF : ascii := ascii_of_nat 10.
Definition CR : ascii := ascii_of_nat 13.

(** [str.isspace] on one character, for code points below 256:
    TAB LF VT FF CR, FS GS RS US, SPACE, NEL (0x85) and NBSP (0xA0). *)
Definition isspace (c : ascii) : bool :=
  let n := nat_of_ascii c in
  ((9 <=? n) && (n <=? 13))%nat
  || ((28 <=? n) && (n <=? 32))%nat
  || (n =? 133)%nat || (n =? 160)%nat.

(** Truthiness of a [str]: non-empty. *)
Definition truthy (s : string) : bool :=
  match s with EmptyString => false | String _ _ => true end.

Fixpoint lstrip (s : string) : string :=
  match s with
  | EmptyString => EmptyString
  | String c r => if isspace c then lstrip r else s
  end.

Fixpoint rstrip (s : string) : string :=
  match s with
  | EmptyString => EmptyString
  | String c r =>
      match rstrip r with
      | EmptyString => if isspace c then EmptyString else String c EmptyString
      | r' => String c r'
      end
  end.

(** [line.strip()]: whitespace removed at both ends. *)
Definition strip (s : string) : string := rstrip (lstrip s).

(** [open(..., "r")] has [newline=None]: on reading, CR LF and a lone CR
    become LF. *)
Fixpoint universal_newlines (s : string) : string :=
  match s with
  | EmptyString => EmptyString
  | String c r =>
      if Ascii.eqb c CR then
        match r with
        | String c' r' =>
            if Ascii.eqb c' LF then String LF (universal_newlines r')
            else String LF (universal_newlines r)
        | EmptyString => String LF EmptyString
        end
      else String c (universal_newlines r)
  end.

(** [for line in f]: the lines of the text, each with its terminating LF
    (the last line has none when the text does not end in LF). *)
Fixpoint file_lines (s : string) : list string :=
  match s with
  | EmptyString => []
  | String c r =>
      if Ascii.eqb c LF then String c EmptyString :: file_lines r
      else match file_lines r with
           | [] => [String c EmptyString]
           | l :: ls => String c l :: ls
           end
  end.

End Text.

(** ** The benchmark object *)

(** What [open(path, "r", encoding="utf-8")] and reading give: the decoded
    text, or [None] when opening or decoding raises. *)
Definition filesystem := string -> option string.

(** The attributes of [HttpBenchmark] (lines 11-21). [progress_bar] is the
    count [tqdm] has been advanced to. *)
Record HttpBenchmark := mkHttpBenchmark {
  url : string;
  total_requests : Z;
  concurrency : Z;
  dataset_path : string;
  success_count : Z;
  failure_count : Z;
  total_time : Q;
  completed_requests : Z;
  data_pool : list string;
  progress_bar : Z
}.

(** The list comprehension of line 29:
    [[line.strip() for line in f if line.strip()]]. *)
Fixpoint stripped_nonblank (lines : list string) : list string :=
  match lines with
  | [] => []
  | line :: rest =>
      if Text.truthy (Text.strip line)
      then Text.strip line :: stripped_nonblank rest
      else stripped_nonblank rest
  end.

(** [load_dataset] (lines 23-32): any exception while opening or reading is
    swallowed (a message is printed) and the pool is empty. *)
Definition load_dataset (fs : filesystem) (path : string) : list string :=
  match fs path with
  | Some text => stripped_nonblank (Text.file_lines (Text.universal_newlines text))
  | None => []
  end.

(** [__init__] (lines 11-21). *)
Definition init (fs : filesystem) (url : string) (total_requests concurrency : Z)
    (dataset_path : string) : HttpBenchmark :=
  {| url := url;
     total_requests := total_requests;
     concurrency := concurrency;
     dataset_path := dataset_path;
     success_count := 0;
     failure_count := 0;
     total_time := 0%Q;
     completed_requests := 0;
     data_pool := load_dataset fs dataset_path;
     progress_bar := 0 |}.

(** The wording of the specification for [load], to compare with the code:
    strip every line, then discard the lines that are empty. *)
Definition spec_load (lines : list string) : list string :=
  List.filter Text.truthy (List.map Text.strip lines).

(** ** Exceptions, JSON values, events *)

(** The exceptions the program meets, all of them subclasses of [Exception]
    (what [except Exception] catches).  Signals that are not ([KeyboardInterrupt],
    task cancellation) abort the process from outside and are not modelled. *)
Inductive exn :=
| ValueError (msg : string)
| IndexError
| ConnectError
| TimeoutException
| OtherException (name : string).

Inductive result (A : Type) :=
| Ok (a : A)
| Raised (e : exn).
Arguments Ok {A} a.
Arguments Raised {A} e.

(** The values of the request body. *)
#[warnings="-register-all"]
Inductive json :=
| JStr (s : string)
| JBool (b : bool)
| JInt (n : Z)
| JFloat (q : Q)
| JDict (items : list (string * json)).

(** What [await client.post(...)] resolves to: a response, of which the
    program reads the status code only, or an exception. *)
Inductive post_result :=
| Response (status_code : Z)
| PostRaises (e : exn).

(** The outcome of a work item, as the statistics classify it (lines 64, 67
    and 71); the first two carry [elapsed_time]. *)
Inductive outcome :=
| Success (elapsed_time : Q)
| Non200 (status_code : Z) (elapsed_time : Q)
| Exception (e : exn).

(** What a work item does, tagged with the index [i] that [run] gave it.
    Permits, clock reads, POSTs, tracebacks and progress updates are effects
    of the program; [EvSample], [EvPayload] and [EvOutcome] are ghost events
    that mark internal steps: the call of [get_random_prompt], the dict that
    was built, and the branch the item took with the value of its local
    [elapsed_time]. *)
Inductive event :=
| EvAcquire (i : nat)
| EvMonotonic (i : nat) (t : Q)
| EvSample (i : nat)
| EvPayload (i : nat) (data : json)
| EvPost (i : nat) (issued : Q) (url : string) (data : json) (timeout : Q)
| EvOutcome (i : nat) (o : outcome)
| EvTraceback (i : nat) (e : exn)
| EvProgress (i : nat)
| EvRelease (i : nat).

Definition ev_item (e : event) : nat :=
  match e with
  | EvAcquire i | EvMonotonic i _ | EvSample i | EvPayload i _
  | EvPost i _ _ _ _ | EvOutcome i _ | EvTraceback i _ | EvProgress i
  | EvRelease i => i
  end.

(** ** The process: object, clock, semaphore, log *)

Record world := mkWorld {
  self : HttpBenchmark;
  clock : Q;          (* what time.monotonic() returns now *)
  sem_value : Z;      (* the free permits of the asyncio.Semaphore *)
  log : list event    (* oldest first *)
}.

(** [httpx.AsyncClient(timeout=httpx.Timeout(60.0))], line 78. *)
Definition client_timeout : Q := 60.

Definition set_self (f : HttpBenchmark -> HttpBenchmark) (w : world) : world :=
  {| self := f (self w); clock := clock w; sem_value := sem_value w; log := log w |}.
Definition set_clock (f : Q -> Q) (w : world) : world :=
  {| self := self w; clock := f (clock w); sem_value := sem_value w; log := log w |}.
Definition set_sem (f : Z -> Z) (w : world) : world :=
  {| self := self w; clock := clock w; sem_value := f (sem_value w); log := log w |}.
Definition emit (e : event) (w : world) : world :=
  {| self := self w; clock := clock w; sem_value := sem_value w; log := log w ++ [e] |}.

Definition add_success_count (n : Z) (b : HttpBenchmark) : HttpBenchmark :=
  {| url := url b; total_requests := total_requests b; concurrency := concurrency b;
     dataset_path := dataset_path b; success_count := success_count b + n;
     failure_count := failure_count b; total_time := total_time b;
     completed_requests := completed_requests b; data_pool := data_pool b;
     progress_bar := progress_bar b |}.
Definition add_failure_count (n : Z) (b : HttpBenchmark) : HttpBenchmark :=
  {| url := url b; total_requests := total_requests b; concurrency := concurrency b;
     dataset_path := dataset_path b; success_count := success_count b;
     failure_count := failure_count b + n; total_time := total_time b;
     completed_requests := completed_requests b; data_pool := data_pool b;
     progress_bar := progress_bar b |}.
Definition add_total_time (d : Q) (b : HttpBenchmark) : HttpBenchmark :=
  {| url := url b; total_requests := total_requests b; concurrency := concurrency b;
     dataset_path := dataset_path b; success_count := success_count b;
     failure_count := failure_count b; total_time := (total_time b + d)%Q;
     completed_requests := completed_requests b; data_pool := data_pool b;
     progress_bar := progress_bar b |}.
Definition add_completed_requests (n : Z) (b : HttpBenchmark) : HttpBenchmark :=
  {| url := url b; total_requests := total_requests b; concurrency := concurrency b;
     dataset_path := dataset_path b; success_count := success_count b;
     failure_count := failure_count b; total_time := total_time b;
     completed_requests := completed_requests b + n; data_pool := data_pool b;
     progress_bar := progress_bar b |}.
Definition add_progress_bar (n : Z) (b : HttpBenchmark) : HttpBenchmark :=
  {| url := url b; total_requests := total_requests b; concurrency := concurrency b;
     dataset_path := dataset_path b; success_count := success_count b;
     failure_count := failure_count b; total_time := total_time b;
     completed_requests := completed_requests b; data_pool := data_pool b;
     progress_bar := progress_bar b + n |}.

(** ** A state monad in which exceptions keep the state

    As in Python, what a block did before it raised stays done. *)

Definition M (A : Type) : Type := world -> result A * world.

Definition ret {A} (a : A) : M A := fun w => (Ok a, w).
Definition bind {A B} (m : M A) (k : A -> M B) : M B :=
  fun w => match m w with
           | (Ok a, w') => k a w'
           | (Raised e, w') => (Raised e, w')
           end.
(** [try: body / except Exception as e: handler e]. *)
Definition try_except {A} (body : M A) (handler : exn -> M A) : M A :=
  fun w => match body w with
           | (Ok a, w') => (Ok a, w')
           | (Raised e, w') => handler e w'
           end.
(** [try: body / finally: final]: [final] runs on both exits. *)
Definition try_finally {A} (body : M A) (final : M unit) : M A :=
  fun w => match body w with
           | (r, w') =>
               match final w' with
               | (Ok _, w'') => (r, w'')
               | (Raised e, w'') => (Raised e, w'')
               end
           end.
Definition modify (f : world -> world) : M unit := fun w => (Ok tt, f w).
Definition lift {A} (r : result A) : M A := fun w => (r, w).

Declare Scope py_scope.
Delimit Scope py_scope with py.
Notation "x <- m ;; k" := (bind m (fun x => k))
  (at level 100, m at next level, right associativity) : py_scope.
Notation "m ;; k" := (bind m (fun _ => k))
  (at level 100, right associativity) : py_scope.
Local Open Scope py_scope.

(** ** The methods *)

(** [random.choice(seq)] is [seq[randbelow(len(seq))]]; [rnd] is the raw
    draw of the generator, reduced below [len(seq)]. *)
Definition random_choice {A} (seq : list A) (rnd : nat) : result A :=
  match seq !! (rnd mod length seq)%nat with
  | Some x => Ok x
  | None => Raised IndexError
  end.

(** The message of line 39. *)
Definition empty_pool_message : string := "数据池为空，请检查数据集文件。".

(** [get_random_prompt] (lines 34-40). *)
Definition get_random_prompt (self : HttpBenchmark) (rnd : nat) : result string :=
  match data_pool self with
  | [] => Raised (ValueError empty_pool_message)
  | _ :: _ => random_choice (data_pool self) rnd
  end.

(** The dict of lines 49-54, in insertion order. *)
Definition payload (prompt : string) : json :=
  JDict [ ("prompt"%string, JStr prompt);
          ("stream"%string, JBool false);
          ("temperature"%string, JFloat (6 # 10));
          ("max_tokens"%string, JInt 9999) ].

(** [time.monotonic()]. *)
Definition monotonic (i : nat) : M Q :=
  fun w => (Ok (clock w), emit (EvMonotonic i (clock w)) w).

(** Time that passes while synchronous code runs. *)
Definition spend (d : Q) : M unit := modify (set_clock (fun t => (t + d)%Q)).

(** Lines 45-56, up to the point where [client.post] has been called and the
    task suspends: the start time, the prompt, the payload, the call.
    [d_sample] and [d_build] are the times sampling and building take. *)
Definition before_await (i rnd : nat) (d_sample d_build : Q) : M Q :=
  start_time <- monotonic i ;;
  modify (emit (EvSample i)) ;;
  b <- (fun w => (Ok (self w), w)) ;;
  prompt <- lift (get_random_prompt b rnd) ;;
  spend d_sample ;;
  let data := payload prompt in
  modify (emit (EvPayload i data)) ;;
  spend d_build ;;
  issued <- (fun w => (Ok (clock w), w)) ;;
  modify (emit (EvPost i issued (url b) data client_timeout)) ;;
  ret start_time.

(** Lines 56-68, from the point where the awaited call resolves. *)
Definition after_await (i : nat) (start_time : Q) (r : post_result) : M unit :=
  status_code <- lift (match r with
                       | Response sc => Ok sc
                       | PostRaises e => Raised e
                       end) ;;
  end_time <- monotonic i ;;
  let elapsed_time := (end_time - start_time)%Q in
  modify (set_self (add_total_time elapsed_time)) ;;
  modify (set_self (add_completed_requests 1)) ;;
  if status_code =? 200 then
    modify (set_self (add_success_count 1)) ;;
    modify (emit (EvOutcome i (Success elapsed_time)))
  else
    modify (set_self (add_failure_count 1)) ;;
    modify (emit (EvOutcome i (Non200 status_code elapsed_time))).

(** Lines 70-72. *)
Definition except_clause (i : nat) (e : exn) : M unit :=
  modify (set_self (add_failure_count 1)) ;;
  modify (emit (EvOutcome i (Exception e))) ;;
  modify (emit (EvTraceback i e)).

(** Lines 73-74. *)
Definition finally_clause (i : nat) : M unit :=
  modify (set_self (add_progress_bar 1)) ;;
  modify (emit (EvProgress i)).

(** Entering and leaving [async with semaphore] (line 43). The event loop
    lets a task through [acquire] only when a permit is free (see [step]). *)
Definition acquire (i : nat) : M unit :=
  modify (set_sem (fun v => v - 1)) ;; modify (emit (EvAcquire i)).
Definition release (i : nat) : M unit :=
  modify (set_sem (fun v => v + 1)) ;; modify (emit (EvRelease i)).

(** [make_request], first segment: from the acquisition of the permit to
    the suspension in [await client.post] ([Some start_time]: the task is
    still inside [try] and inside [async with]), or, when the code before the
    call raises, through [except], [finally] and the release of the permit to
    the end of the coroutine ([None]). *)
Definition make_request_enter (i rnd : nat) (d_sample d_build : Q) : M (option Q) :=
  acquire i ;;
  try_except
    (start_time <- before_await i rnd d_sample d_build ;; ret (Some start_time))
    (fun e =>
       try_finally
         (try_finally (except_clause i e) (finally_clause i))
         (release i) ;;
       ret None).

(** [make_request], second segment: from the resolution of the awaited call
    to the end of the coroutine. *)
Definition make_request_resume (i : nat) (start_time : Q) (r : post_result) : M unit :=
  try_finally
    (try_finally
       (try_except (after_await i start_time r) (except_clause i))
       (finally_clause i))
    (release i).

(** ** The run: tasks, the event loop, the network *)

(** Where a task created by line 82 stands. *)
Inductive task :=
| Pending                      (* created; not yet past [async with semaphore] *)
| Awaiting (start_time : Q)    (* holds a permit; suspended in [await client.post] *)
| Finished.                    (* the coroutine has returned *)

Record run_state := mkRun {
  process : world;
  tasks : list task;
  aborted : option exn   (* an exception left a task: [gather] re-raises it *)
}.

(** What happens next is chosen by the event loop and the network. *)
Inductive action :=
| Enter (i rnd : nat) (d_sample d_build : Q)  (* task [i] gets a permit and runs to its [await] *)
| Tick (dt : Q)                               (* the loop is idle for [dt] *)
| Resume (i : nat) (r : post_result).         (* the call of task [i] resolves; it runs to its end *)

Definition nonneg (q : Q) : bool := Qle_bool 0 q.

Definition step (a : action) (s : run_state) : option run_state :=
  match aborted s with
  | Some _ => None
  | None =>
      match a with
      | Tick dt =>
          if nonneg dt
          then Some (mkRun (set_clock (fun t => (t + dt)%Q) (process s)) (tasks s) None)
          else None
      | Enter i rnd d_sample d_build =>
          match tasks s !! i with
          | Some Pending =>
              if (0 <? sem_value (process s)) && nonneg d_sample && nonneg d_build then
                match make_request_enter i rnd d_sample d_build (process s) with
                | (Ok (Some start_time), w) =>
                    Some (mkRun w (<[i := Awaiting start_time]> (tasks s)) None)
                | (Ok None, w) => Some (mkRun w (<[i := Finished]> (tasks s)) None)
                | (Raised e, w) => Some (mkRun w (<[i := Finished]> (tasks s)) (Some e))
                end
              else None
          | _ => None
          end
      | Resume i r =>
          match tasks s !! i with
          | Some (Awaiting start_time) =>
              match make_request_resume i start_time r (process s) with
              | (Ok _, w) => Some (mkRun w (<[i := Finished]> (tasks s)) None)
              | (Raised e, w) => Some (mkRun w (<[i := Finished]> (tasks s)) (Some e))
              end
          | _ => None
          end
      end
  end.

Fixpoint exec (sched : list action) (s : run_state) : option run_state :=
  match sched with
  | [] => Some s
  | a :: rest =>
      match step a s with
      | Some s' => exec rest s'
      | None => None
      end
  end.

Definition is_finished (t : task) : bool :=
  match t with Finished => true | _ => false end.
Definition is_awaiting (t : task) : bool :=
  match t with Awaiting _ => true | _ => false end.

(** The tasks whose HTTP call is outstanding. *)
Definition in_flight (s : run_state) : nat :=
  length (List.filter is_awaiting (tasks s)).

(** The [await asyncio.gather] of line 83 returns: every task has returned. *)
Definition all_finished (s : run_state) : bool :=
  forallb is_finished (tasks s).

(** [run], lines 77-82: the semaphore (its constructor raises on a negative
    value), then one task per index of [range(total_requests)]. *)
Definition run_start (b : HttpBenchmark) (t0 : Q) : result run_state :=
  if concurrency b <? 0 then Raised (ValueError "Semaphore initial value must be >= 0")
  else Ok {| process := {| self := b; clock := t0; sem_value := concurrency b; log := [] |};
             tasks := replicate (Z.to_nat (total_requests b)) Pending;
             aborted := None |}.

(** ** The summary of [run_benchmark] *)

(** Lines 90-94. *)
Definition qps (b : HttpBenchmark) (total_duration : Q) : Q :=
  match (total_duration ?= 0)%Q with
  | Gt => (inject_Z (completed_requests b) / total_duration)%Q
  | _ => 0%Q
  end.

(** Lines 96-99. *)
Definition average_time (b : HttpBenchmark) : Q :=
  if 0 <? success_count b
  then (total_time b / inject_Z (success_count b))%Q
  else 0%Q.

Record report := mkReport {
  final : HttpBenchmark;
  total_duration : Q;
  report_average_time : Q;
  report_qps : Q
}.

(** [run] (lines 76-83) under the schedule [sched], started when the clock
    shows [t0]: the state after the last action of the schedule; [None] when
    the semaphore cannot be built or the schedule is impossible. *)
Definition run_to (b : HttpBenchmark) (t0 : Q) (sched : list action) : option run_state :=
  match run_start b t0 with
  | Raised _ => None
  | Ok s0 => exec sched s0
  end.

(** [asyncio.run(self.run())] (line 87): [Some] of the state in which
    [gather] returns, when the schedule takes every task to its end and no
    exception reaches [run]; [None] otherwise. *)
Definition run_final (b : HttpBenchmark) (t0 : Q) (sched : list action) : option run_state :=
  match run_to b t0 sched with
  | Some s =>
      match aborted s with
      | Some _ => None
      | None => if all_finished s then Some s else None
      end
  | None => None
  end.

(** Lines 90-99: what is printed, from the object and the two clock reads. *)
Definition summarize (b : HttpBenchmark) (start_time end_time : Q) : report :=
  let d := (end_time - start_time)%Q in
  mkReport b d (average_time b) (qps b d).

(** [run_benchmark] (lines 85-114). *)
Definition run_benchmark (b : HttpBenchmark) (t0 : Q) (sched : list action) : option report :=
  match run_final b t0 sched with
  | Some s => Some (summarize (self (process s)) t0 (clock (process s)))
  | None => None
  end.

(** ** Reading the log *)

(** The events of work item [i], in order. *)
Definition item_log (i : nat) (l : list event) : list event :=
  List.filter (fun e => Nat.eqb (ev_item e) i) l.

Definition outcomes (l : list event) : list outcome :=
  omap (fun e => match e with EvOutcome _ o => Some o | _ => None end) l.

Definition is_success (o : outcome) : bool :=
  match o with Success _ => true | _ => false end.
Definition is_non200 (o : outcome) : bool :=
  match o with Non200 _ _ => true | _ => false end.
Definition is_exception (o : outcome) : bool :=
  match o with Exception _ => true | _ => false end.

Definition count (p : outcome -> bool) (l : list event) : Z :=
  Z.of_nat (length (List.filter p (outcomes l))).

(** The sum of the elapsed durations of the outcomes that satisfy [p]. *)
Fixpoint sum_elapsed (p : outcome -> bool) (os : list outcome) : Q :=
  match os with
  | [] => 0%Q
  | o :: rest =>
      match o with
      | Success d | Non200 _ d => if p o then (d + sum_elapsed p rest)%Q else sum_elapsed p rest
      | Exception _ => sum_elapsed p rest
      end
  end.

Definition posts (i : nat) (l : list event) : list event :=
  List.filter (fun e => match e with EvPost _ _ _ _ _ => true | _ => false end) (item_log i l).

(** ** The events of a segment *)

Definition evs_prefix (i : nat) (t0 : Q) : list event :=
  [EvAcquire i; EvMonotonic i t0; EvSample i].
Definition evs_call (i : nat) (issued : Q) (u prompt : string) : list event :=
  [EvPayload i (payload prompt); EvPost i issued u (payload prompt) client_timeout].
Definition evs_except (i : nat) (e : exn) : list event :=
  [EvOutcome i (Exception e); EvTraceback i e].
Definition evs_response (i : nat) (t1 : Q) (o : outcome) : list event :=
  [EvMonotonic i t1; EvOutcome i o].
Definition evs_exit (i : nat) : list event :=
  [EvProgress i; EvRelease i].

Ltac run_monad :=
  cbv [make_request_enter make_request_resume before_await after_await
       except_clause finally_clause acquire release monotonic spend
       try_except try_finally bind ret modify lift
       set_self set_clock set_sem emit
       self clock sem_value log
       evs_prefix evs_call evs_except evs_response evs_exit].

(** ** The transitions of a run, by cases *)

Inductive fires : action -> run_state -> run_state -> Prop :=
| fires_tick s dt :
    (0 <= dt)%Q ->
    fires (Tick dt) s
      (mkRun (set_clock (fun t => (t + dt)%Q) (process s)) (tasks s) None)
| fires_enter_raises s i rnd ds db :
    tasks s !! i = Some Pending ->
    0 < sem_value (process s) ->
    data_pool (self (process s)) = [] ->
    let w := process s in
    fires (Enter i rnd ds db) s
      (mkRun
         (mkWorld (add_progress_bar 1 (add_failure_count 1 (self w)))
                  (clock w) (sem_value w - 1 + 1)
                  (log w ++ evs_prefix i (clock w)
                         ++ evs_except i (ValueError empty_pool_message) ++ evs_exit i))
         (<[i := Finished]> (tasks s)) None)
| fires_enter_posts s i rnd ds db prompt :
    tasks s !! i = Some Pending ->
    0 < sem_value (process s) ->
    (0 <= ds)%Q -> (0 <= db)%Q ->
    In prompt (data_pool (self (process s))) ->
    let w := process s in
    fires (Enter i rnd ds db) s
      (mkRun
         (mkWorld (self w) (clock w + ds + db)%Q (sem_value w - 1)
                  (log w ++ evs_prefix i (clock w)
                         ++ evs_call i (clock w + ds + db)%Q (url (self w)) prompt))
         (<[i := Awaiting (clock w)]> (tasks s)) None)
| fires_resume_200 s i t0 :
    tasks s !! i = Some (Awaiting t0) ->
    let w := process s in
    fires (Resume i (Response 200)) s
      (mkRun
         (mkWorld (add_progress_bar 1 (add_success_count 1
                     (add_completed_requests 1 (add_total_time (clock w - t0)%Q (self w)))))
                  (clock w) (sem_value w + 1)
                  (log w ++ evs_response i (clock w) (Success (clock w - t0)%Q) ++ evs_exit i))
         (<[i := Finished]> (tasks s)) None)
| fires_resume_non200 s i t0 sc :
    tasks s !! i = Some (Awaiting t0) ->
    sc <> 200 ->
    let w := process s in
    fires (Resume i (Response sc)) s
      (mkRun
         (mkWorld (add_progress_bar 1 (add_failure_count 1
                     (add_completed_requests 1 (add_total_time (clock w - t0)%Q (self w)))))
                  (clock w) (sem_value w + 1)
                  (log w ++ evs_response i (clock w) (Non200 sc (clock w - t0)%Q) ++ evs_exit i))
         (<[i := Finished]> (tasks s)) None)
| fires_resume_raises s i t0 e :
    tasks s !! i = Some (Awaiting t0) ->
    let w := process s in
    fires (Resume i (PostRaises e)) s
      (mkRun
         (mkWorld (add_progress_bar 1 (add_failure_count 1 (self w)))
                  (clock w) (sem_value w + 1)
                  (log w ++ evs_except i e ++ evs_exit i))
         (<[i := Finished]> (tasks s)) None).

(** ** The invariant of the counters and the permits *)

Definition count_tasks (p : task -> bool) (ts : list task) : nat :=
  length (List.filter p ts).

Definition everything (_ : outcome) : bool := true.

(** The counters against the log, the permits against the tasks. *)
Record run_inv (b0 : HttpBenchmark) (s : run_state) : Prop := {
  inv_running : aborted s = None;
  inv_url : url (self (process s)) = url b0;
  inv_total : total_requests (self (process s)) = total_requests b0;
  inv_concurrency : concurrency (self (process s)) = concurrency b0;
  inv_pool : data_pool (self (process s)) = data_pool b0;
  inv_tasks : length (tasks s) = Z.to_nat (total_requests b0);
  inv_success :
    success_count (self (process s))
    = success_count b0 + count is_success (log (process s));
  inv_failure :
    failure_count (self (process s))
    = failure_count b0 + count is_non200 (log (process s))
      + count is_exception (log (process s));
  inv_completed :
    completed_requests (self (process s))
    = completed_requests b0 + count is_success (log (process s))
      + count is_non200 (log (process s));
  inv_time :
    (total_time (self (process s))
     == total_time b0 + sum_elapsed everything (outcomes (log (process s))))%Q;
  inv_progress :
    progress_bar (self (process s))
    = progress_bar b0 + count everything (log (process s));
  inv_done :
    Z.of_nat (count_tasks is_finished (tasks s)) = count everything (log (process s));
  inv_permits :
    sem_value (process s) + Z.of_nat (in_flight s) = concurrency b0;
  inv_sem : 0 <= sem_value (process s)
}.

(** ** The invariant of the log of a work item *)

Definition own (i : nat) (l : list event) : Prop := Forall (fun e => ev_item e = i) l.

Ltac own_tac :=
  cbv [own evs_prefix evs_call evs_except evs_response evs_exit app];
  repeat constructor.

(** How a work item ended, read off its log: what follows the call. *)
Inductive ending (i : nat) (t0 issued : Q) : list event -> Prop :=
| ending_200 t1 :
    (issued <= t1)%Q ->
    ending i t0 issued (evs_response i t1 (Success (t1 - t0)%Q))
| ending_non200 t1 sc :
    (issued <= t1)%Q -> sc <> 200 ->
    ending i t0 issued (evs_response i t1 (Non200 sc (t1 - t0)%Q))
| ending_raised e :
    ending i t0 issued (evs_except i e).

(** The log of work item [i] when its task is in state [t] and the clock
    shows [now]. *)
Definition shape (b0 : HttpBenchmark) (now : Q) (i : nat) (t : task) (l : list event) : Prop :=
  match t with
  | Pending => l = []
  | Awaiting t0 =>
      exists prompt issued,
        In prompt (data_pool b0) /\ (t0 <= issued)%Q /\ (issued <= now)%Q /\
        l = evs_prefix i t0 ++ evs_call i issued (url b0) prompt
  | Finished =>
      (data_pool b0 = [] /\
       exists t0, l = evs_prefix i t0 ++ evs_except i (ValueError empty_pool_message)
                       ++ evs_exit i)
      \/
      (exists prompt t0 issued tail,
          In prompt (data_pool b0) /\ (t0 <= issued)%Q /\ ending i t0 issued tail /\
          l = evs_prefix i t0 ++ evs_call i issued (url b0) prompt ++ tail ++ evs_exit i)
  end.

Arguments item_log : simpl never.

Definition items_inv (b0 : HttpBenchmark) (s : run_state) : Prop :=
  forall j t, tasks s !! j = Some t ->
    shape b0 (clock (process s)) j t (item_log j (log (process s))).

(** ** Whitespace at the ends of a string *)

Fixpoint all_space (s : string) : bool :=
  match s with
  | EmptyString => true
  | String c r => Text.isspace c && all_space r
  end.

Definition starts_with_space (s : string) : bool :=
  match s with
  | EmptyString => false
  | String c _ => Text.isspace c
  end.

Fixpoint ends_with_space (s : string) : bool :=
  match s with
  | EmptyString => false
  | String c EmptyString => Text.isspace c
  | String _ r => ends_with_space r
  end.

(** ** The mean latency of the specification *)

(** The wording of the specification for the mean latency, to compare with
    the code: the elapsed durations of the successful calls only, over their
    number, and 0 when there is none. *)
Definition spec_average_response_time (l : list event) : Q :=
  if 0 <? count is_success l
  then (sum_elapsed is_success (outcomes l) / inject_Z (count is_success l))%Q
  else 0%Q.

(** ** Permits taken and given back *)

Definition acquires (j : nat) (l : list event) : nat :=
  length (List.filter (fun e => match e with EvAcquire _ => true | _ => false end)
            (item_log j l)).
Definition releases (j : nat) (l : list event) : nat :=
  length (List.filter (fun e => match e with EvRelease _ => true | _ => false end)
            (item_log j l)).

(** ** The order of the steps of a work item *)

Inductive step_kind := KClock | KSample | KPayload | KPost.

Definition kind_of (e : event) : option step_kind :=
  match e with
  | EvMonotonic _ _ => Some KClock
  | EvSample _ => Some KSample
  | EvPayload _ _ => Some KPayload
  | EvPost _ _ _ _ _ => Some KPost
  | _ => None
  end.

(** The clock reads, the sampling, the payload and the POST of work item
    [j], in the order in which they happened. *)
Definition steps (j : nat) (l : list event) : list step_kind :=
  omap kind_of (item_log j l).

Definition clock_reads (j : nat) (l : list event) : list Q :=
  omap (fun e => match e with EvMonotonic _ t => Some t | _ => None end) (item_log j l).

Definition issued_at (j : nat) (l : list event) : list Q :=
  omap (fun e => match e with EvPost _ t _ _ _ => Some t | _ => None end) (item_log j l).

Definition elapsed_of (o : outcome) : option Q :=
  match o with
  | Success d | Non200 _ d => Some d
  | Exception _ => None
  end.

(** The order the specification gives: sample, build, start timestamp, POST,
    end timestamp. *)
Definition spec_steps : list step_kind := [KSample; KPayload; KClock; KPost; KClock].

(** ** Segments that meet an exception *)

(** The work item and the exception, when the segment that action [a] runs
    in state [s] meets one: sampling raises, or the awaited call does. *)
Definition raises_in (a : action) (s : run_state) : option (nat * exn) :=
  match a with
  | Enter i rnd _ _ =>
      match get_random_prompt (self (process s)) rnd with
      | Raised e => Some (i, e)
      | Ok _ => None
      end
  | Resume i (PostRaises e) => Some (i, e)
  | _ => None
  end.

Definition acts_on (a : action) : option nat :=
  match a with
  | Enter i _ _ _ | Resume i _ => Some i
  | Tick _ => None
  end.

(** ** The segments still to run *)

Definition is_pending (t : task) : bool :=
  match t with Pending => true | _ => false end.

(** Segments still to run. *)
Definition remaining (s : run_state) : nat :=
  2 * count_tasks is_pending (tasks s) + count_tasks is_awaiting (tasks s).

(** ** Concrete files, schedules and states *)

Definition nl : string := String Text.LF EmptyString.

(** A file system with one dataset, of four lines, the last without LF. *)
Definition fs1 : filesystem :=
  fun path => if String.eqb path "prompts.txt"
              then Some ("hello" ++ nl ++ nl ++ "  world  " ++ nl ++ "foo")%string
              else None.

(** A file system in which every [open] fails. *)
Definition no_files : filesystem := fun _ => None.

(** Two work items, one after the other: status 200 after 1 second, status
    500 after 3 seconds. *)
Definition sched1 : list action :=
  [Enter 0 4 0 0; Tick 1; Resume 0 (Response 200);
   Enter 1 5 0 0; Tick 3; Resume 1 (Response 500)].

(** Two work items: status 200 after 1 second, then a timeout after 60. *)
Definition sched_timeout : list action :=
  [Enter 0 4 0 0; Tick 1; Resume 0 (Response 200);
   Enter 1 5 0 0; Tick 60; Resume 1 (PostRaises TimeoutException)].

(** One work item, which gets no further than sampling. *)
Definition sched_empty_pool : list action := [Enter 0 3 0 0].

(** One work item: sampling takes 5 seconds, the call 2. *)
Definition sched_slow_sampling : list action :=
  [Enter 0 4 5 0; Tick 2; Resume 0 (Response 200)].

(** The state in which [run] has created the only task of a benchmark
    whose dataset is missing. *)
Definition state_empty_pool : run_state :=
  {| process := {| self := init no_files "http://h/generate" 1 1 "missing.txt";
                   clock := 0; sem_value := 1; log := [] |};
     tasks := [Pending]; aborted := None |}.

(** ** Tallies of a schedule *)

(** What the network delivers in a schedule: calls answered with status 200,
    calls answered with another status, calls that raised; and the segments
    that start a work item. *)
Definition answered_200 (a : action) : bool :=
  match a with Resume _ (Response sc) => sc =? 200 | _ => false end.
Definition answered_other (a : action) : bool :=
  match a with Resume _ (Response sc) => negb (sc =? 200) | _ => false end.
Definition call_raised (a : action) : bool :=
  match a with Resume _ (PostRaises _) => true | _ => false end.
Definition entered (a : action) : bool :=
  match a with Enter _ _ _ _ => true | _ => false end.

Definition tally (p : action -> bool) (sched : list action) : Z :=
  Z.of_nat (length (List.filter p sched)).

(** ** Durations, POSTs and text files *)

Definition nonneg_outcome (o : outcome) : Prop :=
  match o with
  | Success d | Non200 _ d => (0 <= d)%Q
  | Exception _ => True
  end.

Definition is_post (e : event) : bool :=
  match e with EvPost _ _ _ _ _ => true | _ => false end.

Fixpoint has_char (c : ascii) (s : string) : bool :=
  match s with
  | EmptyString => false
  | String c' r => Ascii.eqb c' c || has_char c r
  end.

(** A text with Windows line ends: every LF becomes CR LF. *)
Fixpoint to_crlf (s : string) : string :=
  match s with
  | EmptyString => EmptyString
  | String c r =>
      if Ascii.eqb c Text.LF then String Text.CR (String Text.LF (to_crlf r))
      else String c (to_crlf r)
  end.

(** A dataset file written from a pool: one prompt per line, each line
    ended by LF. *)
Fixpoint dataset_text (pool : list string) : string :=
  match pool with
  | [] => EmptyString
  | p :: rest => (p ++ nl ++ dataset_text rest)%string
  end.

(** A prompt that survives writing and loading: not empty, no whitespace at
    either end, no line break inside. *)
Definition prompt_ok (p : string) : Prop :=
  p <> EmptyString
  /\ starts_with_space p = false /\ ends_with_space p = false
  /\ has_char Text.LF p = false /\ has_char Text.CR p = false.

(** Truth value of [not self.data_pool]. *)
Definition no_prompt (b : HttpBenchmark) : bool :=
  match data_pool b with [] => true | _ :: _ => false end.

(** A line in which LF, if any, is the last character. *)
Fixpoint lf_only_last (s : string) : bool :=
  match s with
  | EmptyString => true
  | String c EmptyString => true
  | String c r => negb (Ascii.eqb c Text.LF) && lf_only_last r
  end.

(** * Properties *)

(** ** What one segment does, in closed form *)

Lemma enter_empty_pool (i rnd : nat) (ds db : Q) (w : world) :
  data_pool (self w) = [] ->
  make_request_enter i rnd ds db w =
  (Ok None,
   mkWorld (add_progress_bar 1 (add_failure_count 1 (self w)))
           (clock w) (sem_value w - 1 + 1)
           (log w ++ evs_prefix i (clock w)
                  ++ evs_except i (ValueError empty_pool_message) ++ evs_exit i)).
Proof.
  intros Hpool. destruct w as [b t v l]. simpl in Hpool.
  run_monad. unfold get_random_prompt. rewrite Hpool.
  rewrite <- !app_assoc. reflexivity.
Qed.

Lemma random_choice_member {A} (seq : list A) (rnd : nat) :
  seq <> [] -> exists x, random_choice seq rnd = Ok x /\ In x seq.
Proof.
  intros Hne. unfold random_choice.
  assert (Hlt : (rnd mod length seq < length seq)%nat).
  { apply Nat.mod_upper_bound. destruct seq; [congruence | simpl; lia]. }
  destruct (lookup_lt_is_Some_2 seq _ Hlt) as [x Hx].
  exists x. rewrite Hx. split; [reflexivity |].
  apply list_elem_of_In. apply list_elem_of_lookup. eauto.
Qed.

Lemma get_random_prompt_member (b : HttpBenchmark) (rnd : nat) :
  data_pool b <> [] ->
  exists p, get_random_prompt b rnd = Ok p /\ In p (data_pool b).
Proof.
  intros Hne. unfold get_random_prompt.
  destruct (data_pool b) as [|p0 ps] eqn:Hpool; [congruence |].
  apply random_choice_member. congruence.
Qed.

Lemma enter_reaches_post (i rnd : nat) (ds db : Q) (w : world) (prompt : string) :
  get_random_prompt (self w) rnd = Ok prompt ->
  make_request_enter i rnd ds db w =
  (Ok (Some (clock w)),
   mkWorld (self w) (clock w + ds + db)%Q (sem_value w - 1)
           (log w ++ evs_prefix i (clock w)
                  ++ evs_call i (clock w + ds + db)%Q (url (self w)) prompt)).
Proof.
  intros Hp. destruct w as [b t v l]. simpl in Hp.
  run_monad. rewrite Hp.
  rewrite <- !app_assoc. reflexivity.
Qed.

Lemma resume_200 (i : nat) (t0 : Q) (w : world) :
  make_request_resume i t0 (Response 200) w =
  (Ok tt,
   mkWorld (add_progress_bar 1 (add_success_count 1
              (add_completed_requests 1 (add_total_time (clock w - t0)%Q (self w)))))
           (clock w) (sem_value w + 1)
           (log w ++ evs_response i (clock w) (Success (clock w - t0)%Q) ++ evs_exit i)).
Proof.
  destruct w as [b t v l]. run_monad. simpl.
  rewrite <- !app_assoc. reflexivity.
Qed.

Lemma resume_non200 (i : nat) (t0 : Q) (sc : Z) (w : world) :
  sc <> 200 ->
  make_request_resume i t0 (Response sc) w =
  (Ok tt,
   mkWorld (add_progress_bar 1 (add_failure_count 1
              (add_completed_requests 1 (add_total_time (clock w - t0)%Q (self w)))))
           (clock w) (sem_value w + 1)
           (log w ++ evs_response i (clock w) (Non200 sc (clock w - t0)%Q) ++ evs_exit i)).
Proof.
  intros Hsc. destruct w as [b t v l]. run_monad.
  apply Z.eqb_neq in Hsc. rewrite Hsc.
  rewrite <- !app_assoc. reflexivity.
Qed.

Lemma resume_raises (i : nat) (t0 : Q) (e : exn) (w : world) :
  make_request_resume i t0 (PostRaises e) w =
  (Ok tt,
   mkWorld (add_progress_bar 1 (add_failure_count 1 (self w)))
           (clock w) (sem_value w + 1)
           (log w ++ evs_except i e ++ evs_exit i)).
Proof.
  destruct w as [b t v l]. run_monad.
  rewrite <- !app_assoc. reflexivity.
Qed.

(** ** The transitions of a run, by cases *)

Lemma nonneg_le (q : Q) : nonneg q = true -> (0 <= q)%Q.
Proof. unfold nonneg. apply Qle_bool_imp_le. Qed.

(** Every step of the executable model is one of the six cases; in
    particular no step lets an exception out of a task. *)
Lemma step_fires (a : action) (s s' : run_state) :
  step a s = Some s' -> aborted s = None /\ fires a s s'.
Proof.
  unfold step. destruct (aborted s) eqn:Hab; [discriminate |].
  intros H. split; [reflexivity |].
  destruct a as [i rnd ds db | dt | i r].
  - destruct (tasks s !! i) as [[| |]|] eqn:Ht; try discriminate.
    destruct (0 <? sem_value (process s)) eqn:Hsem; [| discriminate].
    destruct (nonneg ds) eqn:Hds; [| discriminate].
    destruct (nonneg db) eqn:Hdb; [| discriminate].
    simpl in H. apply Z.ltb_lt in Hsem.
    apply nonneg_le in Hds. apply nonneg_le in Hdb.
    destruct (data_pool (self (process s))) as [|p0 ps] eqn:Hpool.
    + rewrite (enter_empty_pool _ _ _ _ _ Hpool) in H.
      inversion H; subst. apply (fires_enter_raises s i rnd ds db); assumption.
    + destruct (get_random_prompt_member (self (process s)) rnd) as (p & Hp & Hin).
      { rewrite Hpool. discriminate. }
      rewrite (enter_reaches_post _ _ _ _ _ _ Hp) in H.
      inversion H; subst. apply (fires_enter_posts s i rnd ds db p); assumption.
  - destruct (nonneg dt) eqn:Hdt; [| discriminate].
    inversion H; subst. apply fires_tick. apply nonneg_le. assumption.
  - destruct (tasks s !! i) as [[| t0 |]|] eqn:Ht; try discriminate.
    destruct r as [sc | e].
    + destruct (Z.eq_dec sc 200) as [-> | Hsc].
      * rewrite resume_200 in H. inversion H; subst.
        apply (fires_resume_200 s i t0). assumption.
      * rewrite (resume_non200 _ _ _ _ Hsc) in H. inversion H; subst.
        apply (fires_resume_non200 s i t0 sc); assumption.
    + rewrite resume_raises in H. inversion H; subst.
      apply (fires_resume_raises s i t0 e). assumption.
Qed.

(** ** Invariants of a run *)

Lemma exec_preserves (P : run_state -> Prop) :
  (forall a s s', P s -> aborted s = None -> fires a s s' -> P s') ->
  forall sched s s', P s -> exec sched s = Some s' -> P s'.
Proof.
  intros Hstep sched. induction sched as [|a rest IH]; intros s s' HP Hexec.
  - simpl in Hexec. congruence.
  - simpl in Hexec. destruct (step a s) as [s1|] eqn:Hs; [| discriminate].
    apply step_fires in Hs as [Hab Hf]. eauto.
Qed.

Lemma exec_app (l1 l2 : list action) (s : run_state) :
  exec (l1 ++ l2) s = match exec l1 s with Some s1 => exec l2 s1 | None => None end.
Proof.
  revert s. induction l1 as [|a l1 IH]; intros s; simpl; [reflexivity |].
  destruct (step a s); [apply IH | reflexivity].
Qed.

Lemma count_tasks_insert (p : task -> bool) (ts : list task) (i : nat) (a b : task) :
  ts !! i = Some a ->
  (count_tasks p (<[i := b]> ts) + (if p a then 1 else 0)
   = count_tasks p ts + (if p b then 1 else 0))%nat.
Proof.
  unfold count_tasks. revert i. induction ts as [|t ts IH]; intros i Hi.
  - discriminate.
  - destruct i as [|i]; simpl in *.
    + inversion Hi; subst. destruct (p a), (p b); simpl; lia.
    + specialize (IH i Hi). destruct (p t); simpl; lia.
Qed.

Lemma outcomes_app (l1 l2 : list event) :
  outcomes (l1 ++ l2) = outcomes l1 ++ outcomes l2.
Proof. unfold outcomes. apply omap_app. Qed.

Lemma count_app (p : outcome -> bool) (l1 l2 : list event) :
  count p (l1 ++ l2) = count p l1 + count p l2.
Proof.
  unfold count. rewrite outcomes_app, List.filter_app, length_app. lia.
Qed.

Lemma sum_elapsed_app (p : outcome -> bool) (l1 l2 : list outcome) :
  (sum_elapsed p (l1 ++ l2) == sum_elapsed p l1 + sum_elapsed p l2)%Q.
Proof.
  induction l1 as [|o l1 IH]; simpl.
  - ring.
  - destruct o; try destruct (p _); rewrite ?IH; ring.
Qed.

Lemma run_inv_start (b0 : HttpBenchmark) (t0 : Q) (s0 : run_state) :
  run_start b0 t0 = Ok s0 -> run_inv b0 s0.
Proof.
  unfold run_start. destruct (concurrency b0 <? 0) eqn:Hc; [discriminate |].
  intros H. inversion H; subst; clear H. apply Z.ltb_ge in Hc.
  assert (Hnone : forall p n, p Pending = false ->
            count_tasks p (replicate n Pending) = 0%nat).
  { intros p n Hp. unfold count_tasks. induction n; simpl; [reflexivity |].
    rewrite Hp. assumption. }
  constructor; simpl; unfold count; simpl; try reflexivity; try lia.
  - apply length_replicate.
  - ring.
  - rewrite Hnone; reflexivity.
  - unfold in_flight. simpl. fold (count_tasks is_awaiting (replicate (Z.to_nat (total_requests b0)) Pending)).
    rewrite Hnone; [lia | reflexivity].
Qed.

Lemma run_inv_step (b0 : HttpBenchmark) (a : action) (s s' : run_state) :
  run_inv b0 s -> aborted s = None -> fires a s s' -> run_inv b0 s'.
Proof.
  intros [] _ Hf.
  destruct Hf as [s dt Hdt | s i rnd ds db Ht Hsem Hpool w | s i rnd ds db prompt Ht Hsem Hds Hdb Hin w
                 | s i t0 Ht w | s i t0 sc Ht Hsc w | s i t0 e Ht w];
    try subst w;
    try (pose proof (count_tasks_insert is_finished _ _ _ Finished Ht) as Hfin;
         pose proof (count_tasks_insert is_awaiting _ _ _ Finished Ht) as Haw);
    try (pose proof (count_tasks_insert is_finished _ _ _ (Awaiting (clock (process s))) Ht) as Hfin';
         pose proof (count_tasks_insert is_awaiting _ _ _ (Awaiting (clock (process s))) Ht) as Haw');
    constructor; unfold in_flight, count_tasks in *;
    simpl in *; rewrite ?length_insert, ?count_app, ?outcomes_app, ?sum_elapsed_app;
    unfold count in *; simpl in *;
    try reflexivity; try assumption; try lia;
    try (rewrite inv_time0; ring).
Qed.

(** ** The log of one work item *)

Lemma item_log_app (j : nat) (l1 l2 : list event) :
  item_log j (l1 ++ l2) = item_log j l1 ++ item_log j l2.
Proof. apply List.filter_app. Qed.

Lemma item_log_own (i : nat) (l : list event) : own i l -> item_log i l = l.
Proof.
  induction 1 as [|e l He _ IH]; [reflexivity |].
  unfold item_log. simpl. rewrite He, Nat.eqb_refl. f_equal. exact IH.
Qed.

Lemma item_log_other (i j : nat) (l : list event) :
  i <> j -> own i l -> item_log j l = [].
Proof.
  intros Hij. induction 1 as [|e l He _ IH]; [reflexivity |].
  unfold item_log. simpl. rewrite He. apply Nat.eqb_neq in Hij. rewrite Hij. exact IH.
Qed.

Lemma own_app (i : nat) (l1 l2 : list event) : own i l1 -> own i l2 -> own i (l1 ++ l2).
Proof. intros H1 H2. apply Forall_app. split; assumption. Qed.

Lemma own_prefix i t : own i (evs_prefix i t).
Proof. repeat constructor. Qed.
Lemma own_call i t u p : own i (evs_call i t u p).
Proof. repeat constructor. Qed.
Lemma own_except i e : own i (evs_except i e).
Proof. repeat constructor. Qed.
Lemma own_response i t o : own i (evs_response i t o).
Proof. repeat constructor. Qed.
Lemma own_exit i : own i (evs_exit i).
Proof. repeat constructor. Qed.

Lemma shape_later (b0 : HttpBenchmark) (now now' : Q) (j : nat) (t : task) (l : list event) :
  (now <= now')%Q -> shape b0 now j t l -> shape b0 now' j t l.
Proof.
  intros Hle. destruct t as [| t0 |]; simpl; try tauto.
  intros (p & issued & Hin & H1 & H2 & Hl).
  exists p, issued. repeat split; try assumption.
  eapply Qle_trans; eassumption.
Qed.

Lemma items_inv_start (b0 : HttpBenchmark) (t0 : Q) (s0 : run_state) :
  run_start b0 t0 = Ok s0 -> items_inv b0 s0.
Proof.
  unfold run_start. destruct (concurrency b0 <? 0); [discriminate |].
  intros H. inversion H; subst; clear H.
  intros j t Hj. simpl in *.
  apply lookup_replicate in Hj as [-> _]. reflexivity.
Qed.

Lemma Qle_plus_nonneg (a d : Q) : (0 <= d)%Q -> (a <= a + d)%Q.
Proof.
  intros Hd. rewrite <- (Qplus_0_r a) at 1. apply Qplus_le_r. exact Hd.
Qed.

Ltac drop_other i j Hij :=
  match goal with
  | |- context [_ ++ item_log j ?l] =>
      rewrite (item_log_other i j l Hij) by own_tac; rewrite app_nil_r
  end.

Lemma items_inv_step (b0 : HttpBenchmark) (a : action) (s s' : run_state) :
  run_inv b0 s -> items_inv b0 s -> fires a s s' -> items_inv b0 s'.
Proof.
  intros Hinv Hitems Hf j t Hj.
  destruct Hinv as [_ Hurl _ _ Hpool _ _ _ _ _ _ _ _ _].
  destruct Hf as [s dt Hdt | s i rnd ds db Ht Hsem Hpool' w | s i rnd ds db prompt Ht Hsem Hds Hdb Hin w
                 | s i t0 Ht w | s i t0 sc Ht Hsc w | s i t0 e Ht w];
    try subst w; simpl in *.
  - (* Tick *)
    eapply shape_later; [| apply Hitems; exact Hj].
    apply Qle_plus_nonneg; assumption.
  - (* Enter, the pool is empty *)
    rewrite item_log_app.
    destruct (decide (i = j)) as [-> | Hij].
    + rewrite list_lookup_insert_eq in Hj by (eapply lookup_lt_Some; eassumption).
      inversion Hj; subst t.
      specialize (Hitems j Pending Ht). simpl in Hitems. rewrite Hitems. simpl app.
      rewrite item_log_own by own_tac.
      left. split; [congruence |]. eexists. reflexivity.
    + rewrite list_lookup_insert_ne in Hj by assumption.
      drop_other i j Hij.
      apply Hitems. exact Hj.
  - (* Enter, the call is issued *)
    rewrite item_log_app.
    assert (Hnow : (clock (process s) <= clock (process s) + ds + db)%Q).
    { eapply Qle_trans; [apply Qle_plus_nonneg; exact Hds |].
      apply Qle_plus_nonneg; exact Hdb. }
    destruct (decide (i = j)) as [-> | Hij].
    + rewrite list_lookup_insert_eq in Hj by (eapply lookup_lt_Some; eassumption).
      inversion Hj; subst t.
      specialize (Hitems j Pending Ht). simpl in Hitems. rewrite Hitems. simpl app.
      rewrite item_log_own by own_tac.
      exists prompt, (clock (process s) + ds + db)%Q.
      repeat split; try assumption; try congruence; try apply Qle_refl.
      rewrite Hurl. reflexivity.
    + rewrite list_lookup_insert_ne in Hj by assumption.
      drop_other i j Hij.
      eapply shape_later; [exact Hnow | apply Hitems; exact Hj].
  - (* Resume, status 200 *)
    rewrite item_log_app.
    destruct (decide (i = j)) as [-> | Hij].
    + rewrite list_lookup_insert_eq in Hj by (eapply lookup_lt_Some; eassumption).
      inversion Hj; subst t.
      destruct (Hitems j _ Ht) as (p & issued & Hp & H1 & H2 & Hl). rewrite Hl.
      rewrite item_log_own by own_tac.
      right. exists p, t0, issued, (evs_response j (clock (process s)) (Success (clock (process s) - t0)%Q)).
      repeat split; try assumption; try (constructor; assumption);
        rewrite <- ?app_assoc; reflexivity.
    + rewrite list_lookup_insert_ne in Hj by assumption.
      drop_other i j Hij.
      apply Hitems. exact Hj.
  - (* Resume, another status *)
    rewrite item_log_app.
    destruct (decide (i = j)) as [-> | Hij].
    + rewrite list_lookup_insert_eq in Hj by (eapply lookup_lt_Some; eassumption).
      inversion Hj; subst t.
      destruct (Hitems j _ Ht) as (p & issued & Hp & H1 & H2 & Hl). rewrite Hl.
      rewrite item_log_own by own_tac.
      right. exists p, t0, issued, (evs_response j (clock (process s)) (Non200 sc (clock (process s) - t0)%Q)).
      repeat split; try assumption; try (constructor; assumption);
        rewrite <- ?app_assoc; reflexivity.
    + rewrite list_lookup_insert_ne in Hj by assumption.
      drop_other i j Hij.
      apply Hitems. exact Hj.
  - (* Resume, the call raised *)
    rewrite item_log_app.
    destruct (decide (i = j)) as [-> | Hij].
    + rewrite list_lookup_insert_eq in Hj by (eapply lookup_lt_Some; eassumption).
      inversion Hj; subst t.
      destruct (Hitems j _ Ht) as (p & issued & Hp & H1 & H2 & Hl). rewrite Hl.
      rewrite item_log_own by own_tac.
      right. exists p, t0, issued, (evs_except j e).
      repeat split; try assumption; try constructor;
        rewrite <- ?app_assoc; reflexivity.
    + rewrite list_lookup_insert_ne in Hj by assumption.
      drop_other i j Hij.
      apply Hitems. exact Hj.
Qed.

(** ** Stripping and loading *)

Lemma lstrip_spec (s : string) :
  exists pre, s = (pre ++ Text.lstrip s)%string /\ all_space pre = true
              /\ starts_with_space (Text.lstrip s) = false.
Proof.
  induction s as [|c r (pre & Hr & Hpre & Hstart)]; simpl.
  - exists EmptyString. auto.
  - destruct (Text.isspace c) eqn:Hc.
    + exists (String c pre). simpl. rewrite Hc, Hpre. rewrite <- Hr. auto.
    + exists EmptyString. simpl. auto.
Qed.

Lemma rstrip_spec (s : string) :
  exists post, s = (Text.rstrip s ++ post)%string /\ all_space post = true
               /\ ends_with_space (Text.rstrip s) = false.
Proof.
  induction s as [|c r (post & Hr & Hpost & Hend)]; simpl.
  - exists EmptyString. auto.
  - destruct (Text.rstrip r) as [|c' r'] eqn:Hrs.
    + destruct (Text.isspace c) eqn:Hc.
      * exists (String c post). simpl in *. subst r. rewrite Hc, Hpost. auto.
      * exists post. simpl in *. subst r. rewrite Hc. auto.
    + exists post. rewrite Hr at 1. simpl. repeat split; try assumption.
Qed.

Lemma rstrip_keeps_start (s : string) :
  starts_with_space s = false -> starts_with_space (Text.rstrip s) = false.
Proof.
  destruct s as [|c r]; simpl; [auto |]. intros Hc.
  destruct (Text.rstrip r); [rewrite Hc |]; simpl; auto.
Qed.

(** [strip] removes a run of whitespace at each end, and all of it. *)
Lemma strip_spec (s : string) :
  exists pre post,
    s = (pre ++ Text.strip s ++ post)%string
    /\ all_space pre = true /\ all_space post = true
    /\ starts_with_space (Text.strip s) = false
    /\ ends_with_space (Text.strip s) = false.
Proof.
  destruct (lstrip_spec s) as (pre & Hs & Hpre & Hstart).
  destruct (rstrip_spec (Text.lstrip s)) as (post & Hl & Hpost & Hend).
  exists pre, post. unfold Text.strip. rewrite <- Hl.
  repeat split; try assumption. apply rstrip_keeps_start. assumption.
Qed.

Lemma stripped_nonblank_spec (lines : list string) :
  stripped_nonblank lines = spec_load lines.
Proof.
  unfold spec_load. induction lines as [|line rest IH]; simpl; [reflexivity |].
  destruct (Text.truthy (Text.strip line)); rewrite IH; reflexivity.
Qed.

Lemma stripped_nonblank_In (lines : list string) (p : string) :
  In p (stripped_nonblank lines) <->
  exists line, In line lines /\ p = Text.strip line /\ p <> EmptyString.
Proof.
  rewrite stripped_nonblank_spec. unfold spec_load.
  rewrite List.filter_In, List.in_map_iff. split.
  - intros [(line & <- & Hin) Ht]. exists line. repeat split; try assumption.
    intros E. rewrite E in Ht. discriminate.
  - intros (line & Hin & -> & Hne). split; [eauto |].
    destruct (Text.strip line); [congruence | reflexivity].
Qed.

Lemma load_dataset_no_blank (fs : filesystem) (path : string) :
  ~ In EmptyString (load_dataset fs path).
Proof.
  unfold load_dataset. destruct (fs path) as [text|]; [| simpl; tauto].
  rewrite stripped_nonblank_In. intros (line & _ & _ & Hne). congruence.
Qed.

Lemma file_lines_concat (s : string) :
  fold_right String.append EmptyString (Text.file_lines s) = s.
Proof.
  induction s as [|c r IH]; simpl; [reflexivity |].
  destruct (Ascii.eqb c Text.LF).
  - simpl. rewrite IH. reflexivity.
  - destruct (Text.file_lines r) as [|l ls]; simpl in *; rewrite <- IH; reflexivity.
Qed.

(** C5. For every dataset file that can be read, [load_dataset] returns the
    lines of the file, in order, each stripped of surrounding whitespace, with
    the lines that are empty after stripping left out; the file whose lines are
    "hello", "", "  world  ", "foo" gives the pool "hello", "world", "foo". *)
Theorem load_dataset_lines (fs : filesystem) (path text : string) :
  fs path = Some text ->
  let lines := Text.file_lines (Text.universal_newlines text) in
  load_dataset fs path = spec_load lines
  /\ (forall p, In p (load_dataset fs path) <->
                exists line, In line lines /\ p = Text.strip line /\ p <> EmptyString)
  /\ (text = ("hello" ++ nl ++ nl ++ "  world  " ++ nl ++ "foo")%string
      \/ text = ("hello" ++ nl ++ nl ++ "  world  " ++ nl ++ "foo" ++ nl)%string ->
      load_dataset fs path = ["hello"; "world"; "foo"]%string)
  /\ spec_load ["hello"; ""; "  world  "; "foo"]%string = ["hello"; "world"; "foo"]%string.
Proof.
  intros Hread lines. unfold load_dataset. rewrite Hread. fold lines.
  split; [apply stripped_nonblank_spec |].
  split; [intros p; apply stripped_nonblank_In |].
  split; [| reflexivity].
  subst lines. intros [-> | ->]; reflexivity.
Qed.

Lemma load_dataset_lines_witness :
  load_dataset fs1 "prompts.txt" = ["hello"; "world"; "foo"]%string.
Proof.
  destruct (load_dataset_lines fs1 "prompts.txt"
              ("hello" ++ nl ++ nl ++ "  world  " ++ nl ++ "foo")%string eq_refl)
    as (_ & _ & H & _).
  apply H. left. reflexivity.
Defined.

(** C4. [get_random_prompt] raises the empty-pool [ValueError] exactly when
    the pool has no element, whatever the call; on a pool that has one, every
    call returns a member of the pool, which is never the empty string when
    the pool holds none, as is the case of every pool [load_dataset] builds. *)
Theorem get_random_prompt_spec (b : HttpBenchmark) (rnd : nat) :
  ((exists e, get_random_prompt b rnd = Raised e) <-> data_pool b = [])
  /\ (data_pool b = [] -> get_random_prompt b rnd = Raised (ValueError empty_pool_message))
  /\ (data_pool b <> [] ->
      exists p, get_random_prompt b rnd = Ok p /\ In p (data_pool b)
                /\ (~ In EmptyString (data_pool b) -> p <> EmptyString))
  /\ (forall fs path, ~ In EmptyString (load_dataset fs path)).
Proof.
  split; [| split; [| split]].
  - split.
    + intros [e He]. destruct (data_pool b) as [|p0 ps] eqn:Hpool; [reflexivity |].
      destruct (get_random_prompt_member b rnd) as (p & Hp & _); congruence.
    + intros Hpool. unfold get_random_prompt. rewrite Hpool. eauto.
  - intros Hpool. unfold get_random_prompt. rewrite Hpool. reflexivity.
  - intros Hne. destruct (get_random_prompt_member b rnd Hne) as (p & Hp & Hin).
    exists p. repeat split; try assumption. intros Hno ->. contradiction.
  - apply load_dataset_no_blank.
Qed.

(** ** Runs from a start state *)

Lemma run_to_inv (b0 : HttpBenchmark) (t0 : Q) (sched : list action) (s : run_state) :
  run_to b0 t0 sched = Some s ->
  run_inv b0 s /\ items_inv b0 s /\ (t0 <= clock (process s))%Q.
Proof.
  unfold run_to. destruct (run_start b0 t0) as [s0|] eqn:Hstart; [| discriminate].
  intros Hexec.
  apply (exec_preserves
           (fun s => run_inv b0 s /\ items_inv b0 s /\ (t0 <= clock (process s))%Q))
    with (sched := sched) (s := s0); [| | exact Hexec].
  - intros a s1 s2 (Hinv & Hitems & Hclock) Hab Hf. split; [| split].
    + eapply run_inv_step; eassumption.
    + eapply items_inv_step; eassumption.
    + destruct Hf; simpl; try assumption.
      * eapply Qle_trans; [exact Hclock | apply Qle_plus_nonneg; assumption].
      * eapply Qle_trans; [exact Hclock |].
        eapply Qle_trans; apply Qle_plus_nonneg; assumption.
  - split; [| split].
    + eapply run_inv_start; eassumption.
    + eapply items_inv_start; eassumption.
    + unfold run_start in Hstart. destruct (concurrency b0 <? 0); [discriminate |].
      inversion Hstart; subst. simpl. apply Qle_refl.
Qed.

Lemma run_final_inv (b0 : HttpBenchmark) (t0 : Q) (sched : list action) (s : run_state) :
  run_final b0 t0 sched = Some s ->
  run_to b0 t0 sched = Some s /\ all_finished s = true.
Proof.
  unfold run_final. destruct (run_to b0 t0 sched) as [s1|] eqn:Hrun; [| discriminate].
  destruct (aborted s1); [discriminate |].
  destruct (all_finished s1) eqn:Hall; [| discriminate].
  intros H. inversion H; subst. auto.
Qed.

Lemma count_split (l : list event) :
  count everything l = count is_success l + count is_non200 l + count is_exception l.
Proof.
  unfold count. induction (outcomes l) as [|o os IH]; simpl; [reflexivity |].
  destruct o; simpl; lia.
Qed.

Lemma all_finished_count (s : run_state) :
  all_finished s = true ->
  count_tasks is_finished (tasks s) = length (tasks s) /\ in_flight s = 0%nat.
Proof.
  unfold all_finished, count_tasks, in_flight.
  induction (tasks s) as [|t ts IH]; simpl; [auto |].
  destruct t; simpl; try discriminate. intros H. destruct (IH H). split; lia.
Qed.

(** ** The claims about the counters *)

(** C1, as amended. When [run_benchmark] is past [asyncio.run], every work
    item has been counted once: [success_count + failure_count] is the
    configured [total_requests], and so is the progress bar.
    [completed_requests] counts the work items that got a response:
    it is [success_count + failure_count] less the items that ended in an
    exception, hence equal to both when no item raised. *)
Theorem completed_requests_at_run_end
    (fs : filesystem) (u : string) (n c : Z) (path : string)
    (t0 : Q) (sched : list action) (s : run_state) :
  0 <= n ->
  run_final (init fs u n c path) t0 sched = Some s ->
  let b := self (process s) in
  let raised := count is_exception (log (process s)) in
  success_count b + failure_count b = n
  /\ progress_bar b = n
  /\ total_requests b = n
  /\ completed_requests b = success_count b + failure_count b - raised
  /\ (raised = 0 ->
      completed_requests b = success_count b + failure_count b
      /\ completed_requests b = total_requests b).
Proof.
  intros Hn Hrun b raised.
  apply run_final_inv in Hrun as (Hto & Hall).
  destruct (run_to_inv _ _ _ _ Hto) as ([] & _ & _).
  apply all_finished_count in Hall as [Hfin _].
  pose proof (count_split (log (process s))) as Hsplit.
  subst b raised. simpl in *.
  rewrite Hfin, inv_tasks0 in inv_done0.
  repeat split; lia.
Qed.

Lemma completed_requests_at_run_end_witness :
  exists s, run_final (init fs1 "http://h/generate" 2 1 "prompts.txt") 10 sched_timeout = Some s
            /\ success_count (self (process s)) + failure_count (self (process s)) = 2
            /\ progress_bar (self (process s)) = 2.
Proof.
  destruct (run_final (init fs1 "http://h/generate" 2 1 "prompts.txt") 10 sched_timeout)
    as [s|] eqn:Hrun; [| vm_compute in Hrun; discriminate].
  exists s. split; [reflexivity |].
  destruct (completed_requests_at_run_end fs1 "http://h/generate" 2 1 "prompts.txt"
              10 sched_timeout s ltac:(lia) Hrun) as (H1 & H2 & _).
  split; [exact H1 | exact H2].
Defined.

(** C1 as stated fails: in a run of two work items of which the second times
    out, every item reaches a terminal outcome and [completed_requests] is 1,
    neither [success_count + failure_count] nor [total_requests], which are 2. *)
Lemma completed_requests_misses_exceptions :
  exists s, run_final (init fs1 "http://h/generate" 2 1 "prompts.txt") 10 sched_timeout = Some s
            /\ all_finished s = true
            /\ completed_requests (self (process s)) = 1
            /\ success_count (self (process s)) = 1
            /\ failure_count (self (process s)) = 1
            /\ total_requests (self (process s)) = 2
            /\ completed_requests (self (process s))
               <> success_count (self (process s)) + failure_count (self (process s))
            /\ completed_requests (self (process s)) <> total_requests (self (process s)).
Proof.
  eexists. split; [vm_compute; reflexivity |].
  vm_compute. repeat split; discriminate.
Qed.

(** X15. What [average_time] is at the end of a run: the elapsed durations
    of every call that got a response, with status 200 or not, over the
    number of calls with status 200; 0 when no call had status 200. *)
Lemma average_time_at_run_end
    (fs : filesystem) (u : string) (n c : Z) (path : string)
    (t0 : Q) (sched : list action) (s : run_state) :
  run_final (init fs u n c path) t0 sched = Some s ->
  let b := self (process s) in
  let l := log (process s) in
  (0 < success_count b ->
   (average_time b
    == sum_elapsed everything (outcomes l) / inject_Z (count is_success l))%Q)
  /\ (success_count b = 0 -> average_time b = 0%Q).
Proof.
  intros Hrun b l.
  apply run_final_inv in Hrun as (Hto & Hall).
  destruct (run_to_inv _ _ _ _ Hto) as ([] & _ & _).
  subst b l. simpl in *. unfold average_time. split.
  - intros Hpos. apply Z.ltb_lt in Hpos. rewrite Hpos.
    rewrite inv_time0, inv_success0. simpl. rewrite Qplus_0_l. reflexivity.
  - intros ->. reflexivity.
Qed.

(** C2 at a failing input: two work items, the first answered with status
    200 after 1 second, the second with status 500 after 3 seconds.
    [run_benchmark] reports an average of 4 seconds, the spec's mean over
    successful calls is 1 second: the duration of the failed call is in the
    numerator. *)
Theorem average_time_counts_non200_durations :
  exists s r,
    run_final (init fs1 "http://h/generate" 2 1 "prompts.txt") 10 sched1 = Some s
    /\ run_benchmark (init fs1 "http://h/generate" 2 1 "prompts.txt") 10 sched1 = Some r
    /\ outcomes (log (process s)) = [Success 1; Non200 500 3]
    /\ success_count (final r) = 1
    /\ (report_average_time r == 4)%Q
    /\ (spec_average_response_time (log (process s)) == 1)%Q
    /\ ~ (report_average_time r == spec_average_response_time (log (process s)))%Q.
Proof.
  eexists. eexists. split; [vm_compute; reflexivity |].
  split; [vm_compute; reflexivity |].
  vm_compute. repeat split; try reflexivity; discriminate.
Qed.

(** ** Throughput *)

Lemma qps_cases (b : HttpBenchmark) (d : Q) :
  ((0 < d)%Q -> qps b d = (inject_Z (completed_requests b) / d)%Q)
  /\ ((d <= 0)%Q -> qps b d = 0%Q).
Proof.
  unfold qps. split.
  - intros Hd. apply Qgt_alt in Hd. rewrite Hd. reflexivity.
  - intros Hd. apply Qle_alt in Hd.
    destruct (d ?= 0)%Q eqn:E; try reflexivity. exfalso. apply Hd. exact E.
Qed.

(** C6, as amended. The QPS that [run_benchmark] reports is
    [completed_requests] over the wall-clock duration of the run when that
    duration is positive, and exactly 0 when it is 0.  The numerator is the
    counter [completed_requests], the number of work items that got a
    response (status 200 or not): it is not the configured total, and the
    work items that ended in an exception are not in it. *)
Theorem qps_at_run_end
    (fs : filesystem) (u : string) (n c : Z) (path : string)
    (t0 : Q) (sched : list action) (s : run_state) :
  run_final (init fs u n c path) t0 sched = Some s ->
  let b := self (process s) in
  let l := log (process s) in
  let r := summarize b t0 (clock (process s)) in
  run_benchmark (init fs u n c path) t0 sched = Some r
  /\ (0 <= total_duration r)%Q
  /\ ((0 < total_duration r)%Q ->
      report_qps r = (inject_Z (completed_requests b) / total_duration r)%Q)
  /\ ((total_duration r == 0)%Q -> report_qps r = 0%Q)
  /\ completed_requests b = count is_success l + count is_non200 l
  /\ completed_requests b = success_count b + failure_count b - count is_exception l.
Proof.
  intros Hrun b l r. unfold run_benchmark. rewrite Hrun.
  apply run_final_inv in Hrun as (Hto & Hall).
  destruct (run_to_inv _ _ _ _ Hto) as ([] & _ & Hclock).
  subst b l r. simpl in *.
  split; [reflexivity |].
  split. { unfold Qminus. rewrite <- Qle_minus_iff. exact Hclock. }
  split. { intros Hd. apply qps_cases. exact Hd. }
  split. { intros Hd. apply qps_cases. rewrite Hd. apply Qle_refl. }
  split; lia.
Qed.

Lemma qps_at_run_end_witness :
  exists s, run_final (init fs1 "http://h/generate" 2 1 "prompts.txt") 10 sched1 = Some s
            /\ completed_requests (self (process s))
               = count is_success (log (process s)) + count is_non200 (log (process s)).
Proof.
  destruct (run_final (init fs1 "http://h/generate" 2 1 "prompts.txt") 10 sched1)
    as [s|] eqn:Hrun; [| vm_compute in Hrun; discriminate].
  exists s. split; [reflexivity |].
  destruct (qps_at_run_end fs1 "http://h/generate" 2 1 "prompts.txt" 10 sched1 s Hrun)
    as (_ & _ & _ & _ & H & _).
  exact H.
Defined.

(** C6 as stated fails: in the run whose second work item times out, two
    requests ended (one success, one failure) in 61 seconds, and the QPS
    reported is 1/61, not 2/61. *)
Lemma qps_numerator_misses_exceptions :
  exists r,
    run_benchmark (init fs1 "http://h/generate" 2 1 "prompts.txt") 10 sched_timeout = Some r
    /\ success_count (final r) + failure_count (final r) = 2
    /\ (total_duration r == 61)%Q
    /\ (report_qps r == 1 # 61)%Q
    /\ ~ (report_qps r
          == inject_Z (success_count (final r) + failure_count (final r)) / total_duration r)%Q.
Proof.
  eexists. split; [vm_compute; reflexivity |].
  vm_compute. repeat split; try reflexivity; discriminate.
Qed.

(** ** The concurrency gate *)

Ltac use_shape H :=
  simpl in H;
  repeat match type of H with
         | _ \/ _ => destruct H as [H | H]
         | _ /\ _ => let H' := fresh "Hs" in destruct H as [H' H]
         | exists _, _ => let x := fresh "x" in destruct H as [x H]
         end.

(** C8. In every state of every run, the work items whose HTTP call is
    outstanding are at most [concurrency]: they are exactly the holders of
    the permits taken from the semaphore, which started with [concurrency]
    permits and never goes below 0.  A work item takes its permit before
    anything else, in particular before its POST, and gives it back as the
    last thing it does, whatever its outcome; when all items are done, all
    permits are back. *)
Theorem permits_bound_in_flight
    (b0 : HttpBenchmark) (t0 : Q) (sched : list action) (s : run_state) :
  run_to b0 t0 sched = Some s ->
  let l := log (process s) in
  Z.of_nat (in_flight s) <= concurrency b0
  /\ sem_value (process s) + Z.of_nat (in_flight s) = concurrency b0
  /\ 0 <= sem_value (process s)
  /\ (all_finished s = true -> sem_value (process s) = concurrency b0)
  /\ (forall j t, tasks s !! j = Some t ->
        match t with
        | Pending => acquires j l = 0%nat /\ releases j l = 0%nat /\ posts j l = []
        | Awaiting _ =>
            acquires j l = 1%nat /\ releases j l = 0%nat
            /\ head (item_log j l) = Some (EvAcquire j)
        | Finished =>
            acquires j l = 1%nat /\ releases j l = 1%nat
            /\ head (item_log j l) = Some (EvAcquire j)
            /\ last (item_log j l) = Some (EvRelease j)
        end).
Proof.
  intros Hto l.
  destruct (run_to_inv _ _ _ _ Hto) as ([] & Hitems & _).
  split; [lia |]. split; [assumption |]. split; [assumption |].
  split.
  { intros Hall. apply all_finished_count in Hall as [_ Hz]. lia. }
  intros j t Hj. specialize (Hitems j t Hj). subst l.
  unfold acquires, releases, posts.
  destruct t as [| ts |]; use_shape Hitems;
    try match goal with E : ending _ _ _ _ |- _ => destruct E end;
    rewrite Hitems; repeat split; reflexivity.
Qed.

Lemma permits_bound_in_flight_witness :
  exists s,
    run_to (init fs1 "http://h/generate" 2 1 "prompts.txt") 10 [Enter 1 7 0 0; Tick 2] = Some s
    /\ Z.of_nat (in_flight s) <= 1
    /\ sem_value (process s) + Z.of_nat (in_flight s) = 1.
Proof.
  destruct (run_to (init fs1 "http://h/generate" 2 1 "prompts.txt") 10 [Enter 1 7 0 0; Tick 2])
    as [s|] eqn:Hrun; [| vm_compute in Hrun; discriminate].
  exists s. split; [reflexivity |].
  destruct (permits_bound_in_flight _ _ _ _ Hrun) as (H1 & H2 & _).
  split; [exact H1 | exact H2].
Defined.

(** ** The request on the wire *)

(** C9, as amended. A work item issues at most one HTTP POST: exactly one
    once it has sampled a prompt, which it does whenever the pool is not
    empty, and none when the pool is empty (sampling raises before the call).
    Every POST goes to the configured URL, through the client built with
    [httpx.Timeout(60.0)], and its JSON body is exactly
    [{"prompt": p, "stream": false, "temperature": 0.6, "max_tokens": 9999}]
    for a prompt [p] of the pool. *)
Theorem one_post_per_sampled_prompt
    (b0 : HttpBenchmark) (t0 : Q) (sched : list action) (s : run_state)
    (j : nat) (t : task) :
  run_to b0 t0 sched = Some s ->
  tasks s !! j = Some t ->
  let l := log (process s) in
  (length (posts j l) <= 1)%nat
  /\ (forall e, In e (posts j l) ->
        exists p issued,
          In p (data_pool b0)
          /\ e = EvPost j issued (url b0)
                   (JDict [ ("prompt"%string, JStr p);
                            ("stream"%string, JBool false);
                            ("temperature"%string, JFloat (6 # 10));
                            ("max_tokens"%string, JInt 9999) ])
                   60)
  /\ (t = Finished -> data_pool b0 <> [] -> length (posts j l) = 1%nat)
  /\ (t = Finished -> data_pool b0 = [] -> posts j l = []).
Proof.
  intros Hto Hj l.
  destruct (run_to_inv _ _ _ _ Hto) as (_ & Hitems & _).
  specialize (Hitems j t Hj). subst l. unfold posts.
  destruct t as [| ts |]; use_shape Hitems;
    try match goal with E : ending _ _ _ _ |- _ => destruct E end;
    rewrite Hitems; simpl;
    (split; [lia |]);
    (split; [intros ev Hev; simpl in Hev; try tauto;
             destruct Hev as [<- | []]; eauto |]);
    split; intros; try discriminate; try reflexivity; try congruence.
  all: match goal with
       | Hin : In _ (data_pool ?b), Hnil : data_pool ?b = [] |- _ =>
           rewrite Hnil in Hin; destruct Hin
       end.
Qed.

Lemma one_post_per_sampled_prompt_witness :
  exists s,
    run_to (init fs1 "http://h/generate" 2 1 "prompts.txt") 10 sched1 = Some s
    /\ tasks s !! 1%nat = Some Finished
    /\ length (posts 1 (log (process s))) = 1%nat.
Proof.
  destruct (run_to (init fs1 "http://h/generate" 2 1 "prompts.txt") 10 sched1)
    as [s|] eqn:Hrun; [| vm_compute in Hrun; discriminate].
  exists s. split; [reflexivity |].
  assert (Hj : tasks s !! 1%nat = Some Finished).
  { vm_compute in Hrun. injection Hrun as <-. reflexivity. }
  split; [exact Hj |].
  destruct (one_post_per_sampled_prompt _ _ _ _ _ _ Hrun Hj) as (_ & _ & H & _).
  apply H; [reflexivity | vm_compute; discriminate].
Defined.

(** C9 as stated fails: with an empty pool (here the dataset file is
    missing) the work item ends, as a failure, without any POST. *)
Lemma no_post_when_pool_is_empty :
  exists s,
    run_final (init no_files "http://h/generate" 1 1 "missing.txt") 0 sched_empty_pool = Some s
    /\ tasks s = [Finished]
    /\ posts 0 (log (process s)) = []
    /\ failure_count (self (process s)) = 1.
Proof.
  eexists. split; [vm_compute; reflexivity |].
  vm_compute. repeat split; reflexivity.
Qed.

(** ** The order of the steps of a work item *)

(** C3, as amended. A work item first records its start timestamp, then
    samples a prompt, then builds the payload, then issues the POST, and
    records the end timestamp when the call has returned a response (an item
    whose sampling or call raises stops there and records no end timestamp).
    The elapsed duration, end minus start, therefore spans the sampling and
    the construction of the payload as well as the HTTP call: the start
    timestamp is not later than the moment the POST is issued. *)
Theorem start_timestamp_precedes_sampling
    (b0 : HttpBenchmark) (t0 : Q) (sched : list action) (s : run_state) (j : nat) :
  run_to b0 t0 sched = Some s ->
  tasks s !! j = Some Finished ->
  let l := log (process s) in
  (steps j l = [KClock; KSample]
   /\ outcomes (item_log j l) = [Exception (ValueError empty_pool_message)])
  \/ (steps j l = [KClock; KSample; KPayload; KPost]
      /\ exists e, outcomes (item_log j l) = [Exception e])
  \/ (steps j l = [KClock; KSample; KPayload; KPost; KClock]
      /\ exists t_start t_issued t_end o,
           clock_reads j l = [t_start; t_end]
           /\ issued_at j l = [t_issued]
           /\ outcomes (item_log j l) = [o]
           /\ elapsed_of o = Some (t_end - t_start)%Q
           /\ (t_start <= t_issued)%Q /\ (t_issued <= t_end)%Q).
Proof.
  intros Hto Hj l.
  destruct (run_to_inv _ _ _ _ Hto) as (_ & Hitems & _).
  specialize (Hitems j _ Hj). subst l.
  unfold steps, clock_reads, issued_at.
  use_shape Hitems.
  - left. rewrite Hitems. split; reflexivity.
  - right. destruct Hs1 as [t1 Ht1 | t1 sc Ht1 Hsc | e]; rewrite Hitems.
    + right. split; [reflexivity |].
      exists x0, x1, t1, (Success (t1 - x0)%Q). repeat split; assumption.
    + right. split; [reflexivity |].
      exists x0, x1, t1, (Non200 sc (t1 - x0)%Q). repeat split; assumption.
    + left. split; [reflexivity |]. exists e. reflexivity.
Qed.

Lemma start_timestamp_precedes_sampling_witness :
  exists s,
    run_to (init fs1 "http://h/generate" 1 1 "prompts.txt") 10 sched_slow_sampling = Some s
    /\ tasks s !! 0%nat = Some Finished
    /\ steps 0 (log (process s)) = [KClock; KSample; KPayload; KPost; KClock].
Proof.
  destruct (run_to (init fs1 "http://h/generate" 1 1 "prompts.txt") 10 sched_slow_sampling)
    as [s|] eqn:Hrun; [| vm_compute in Hrun; discriminate].
  exists s. split; [reflexivity |].
  assert (Hj : tasks s !! 0%nat = Some Finished).
  { vm_compute in Hrun. injection Hrun as <-. reflexivity. }
  split; [exact Hj |].
  destruct (start_timestamp_precedes_sampling _ _ _ _ _ Hrun Hj)
    as [[H _] | [[H _] | [H _]]]; try exact H;
    exfalso; vm_compute in Hrun; injection Hrun as <-; vm_compute in H; discriminate.
Defined.

(** C3 as stated fails: for a work item whose sampling takes 5 seconds and
    whose call takes 2, the start timestamp (10) is read before the prompt is
    sampled, the POST is issued at 15 and answered at 17, and the elapsed
    duration recorded is 7 seconds, not the 2 seconds of the HTTP call. *)
Lemma elapsed_time_includes_sampling :
  exists s,
    run_final (init fs1 "http://h/generate" 1 1 "prompts.txt") 10 sched_slow_sampling = Some s
    /\ steps 0 (log (process s)) = [KClock; KSample; KPayload; KPost; KClock]
    /\ steps 0 (log (process s)) <> spec_steps
    /\ clock_reads 0 (log (process s)) = [10; 17]%Q
    /\ issued_at 0 (log (process s)) = [15]%Q
    /\ outcomes (log (process s)) = [Success 7]
    /\ (total_time (self (process s)) == 7)%Q
    /\ ~ (total_time (self (process s)) == 17 - 15)%Q.
Proof.
  eexists. split; [vm_compute; reflexivity |].
  vm_compute. repeat split; try reflexivity; discriminate.
Qed.

(** ** Exceptions inside a work item *)

Lemma segments_return (w : world) :
  (forall i rnd ds db, exists r w', make_request_enter i rnd ds db w = (Ok r, w'))
  /\ (forall i t0 r, exists w', make_request_resume i t0 r w = (Ok tt, w')).
Proof.
  split.
  - intros i rnd ds db.
    destruct (data_pool (self w)) as [|p0 ps] eqn:Hpool.
    + rewrite (enter_empty_pool _ _ _ _ _ Hpool). eauto.
    + destruct (get_random_prompt_member (self w) rnd) as (p & Hp & _).
      { rewrite Hpool. discriminate. }
      rewrite (enter_reaches_post _ _ _ _ _ _ Hp). eauto.
  - intros i t0 [sc | e].
    + destruct (Z.eq_dec sc 200) as [-> | Hsc].
      * rewrite resume_200. eauto.
      * rewrite (resume_non200 _ _ _ _ Hsc). eauto.
    + rewrite resume_raises. eauto.
Qed.

(** What a step does when its segment meets an exception. *)
Lemma step_raising (a : action) (s s' : run_state) (i : nat) (e : exn) :
  raises_in a s = Some (i, e) ->
  step a s = Some s' ->
  self (process s') = add_progress_bar 1 (add_failure_count 1 (self (process s)))
  /\ tasks s' = <[i := Finished]> (tasks s)
  /\ aborted s' = None
  /\ exists pre, log (process s') = log (process s) ++ pre ++ evs_except i e ++ evs_exit i.
Proof.
  intros Hr Hstep. apply step_fires in Hstep as [_ Hf].
  destruct Hf as [s dt Hdt | s i' rnd ds db Ht Hsem Hpool w | s i' rnd ds db prompt Ht Hsem Hds Hdb Hin w
                 | s i' t0 Ht w | s i' t0 sc Ht Hsc w | s i' t0 e' Ht w];
    simpl in Hr; try discriminate.
  - unfold get_random_prompt in Hr. rewrite Hpool in Hr. inversion Hr; subst.
    simpl. repeat split. exists (evs_prefix i (clock (process s))). reflexivity.
  - destruct (get_random_prompt_member (self (process s)) rnd) as (p & Hp & _).
    { intros E. rewrite E in Hin. destruct Hin. }
    rewrite Hp in Hr. discriminate.
  - inversion Hr; subst. simpl. repeat split. exists []. reflexivity.
Qed.

Lemma step_siblings (a : action) (s s' : run_state) (i j : nat) :
  step a s = Some s' -> acts_on a = Some i -> i <> j ->
  tasks s' !! j = tasks s !! j.
Proof.
  intros Hstep Hi Hij. apply step_fires in Hstep as [_ Hf].
  destruct Hf; simpl in *; try discriminate; inversion Hi; subst;
    apply list_lookup_insert_ne; assumption.
Qed.

(** C7. An exception raised inside a work item, by the sampling or by the
    HTTP call (nothing else in it can raise), never leaves the work item:
    both segments of [make_request] always return normally, the item is
    counted as a failure, its task ends, the tasks of the other work items
    are left as they are, and the run is not aborted, in this step or in any
    state it can reach. *)
Theorem exceptions_are_contained
    (b0 : HttpBenchmark) (t0 : Q) (sched : list action) (s : run_state)
    (a : action) (s' : run_state) (i : nat) (e : exn) :
  run_to b0 t0 sched = Some s ->
  raises_in a s = Some (i, e) ->
  step a s = Some s' ->
  failure_count (self (process s')) = failure_count (self (process s)) + 1
  /\ In (EvTraceback i e) (log (process s'))
  /\ tasks s' !! i = Some Finished
  /\ (forall j, j <> i -> tasks s' !! j = tasks s !! j)
  /\ aborted s = None /\ aborted s' = None
  /\ run_to b0 t0 (sched ++ [a]) = Some s'
  /\ (forall rest s'', exec rest s' = Some s'' -> aborted s'' = None)
  /\ (forall w i rnd ds db, exists r w', make_request_enter i rnd ds db w = (Ok r, w'))
  /\ (forall w i t0 r, exists w', make_request_resume i t0 r w = (Ok tt, w')).
Proof.
  intros Hto Hr Hstep.
  destruct (step_raising _ _ _ _ _ Hr Hstep) as (Hself & Htasks & Hab & pre & Hlog).
  destruct (run_to_inv _ _ _ _ Hto) as ([] & _ & _).
  assert (Hacts : acts_on a = Some i).
  { destruct a as [i' rnd ds db | dt | i' [sc | e']]; simpl in *; try discriminate.
    - destruct (get_random_prompt _ _); inversion Hr; reflexivity.
    - inversion Hr; reflexivity. }
  assert (Hi : (i < length (tasks s))%nat).
  { unfold step in Hstep. rewrite inv_running0 in Hstep.
    destruct a as [i' rnd ds db | dt | i' r]; simpl in Hacts; inversion Hacts; subst;
      destruct (tasks s !! i) eqn:Hl; try discriminate;
      eapply lookup_lt_Some; eassumption. }
  split. { rewrite Hself. simpl. reflexivity. }
  split. { rewrite Hlog. rewrite !in_app_iff. right. right. left. simpl. auto. }
  split. { rewrite Htasks. apply list_lookup_insert_eq. exact Hi. }
  split. { intros j Hj. eapply step_siblings; eauto. }
  split; [assumption |]. split; [assumption |].
  split.
  { unfold run_to in *. destruct (run_start b0 t0); [| discriminate].
    rewrite exec_app, Hto. simpl. rewrite Hstep. reflexivity. }
  split.
  { intros rest s'' Hexec.
    apply (exec_preserves (fun s => aborted s = None)) with (sched := rest) (s := s');
      try assumption.
    intros a1 s1 s2 _ _ Hf. destruct Hf; reflexivity. }
  split; intros w; apply segments_return.
Qed.

Lemma exceptions_are_contained_witness :
  exists s s',
    run_to (init fs1 "http://h/generate" 2 1 "prompts.txt") 10 [Enter 1 7 0 0; Tick 60] = Some s
    /\ step (Resume 1 (PostRaises TimeoutException)) s = Some s'
    /\ failure_count (self (process s')) = failure_count (self (process s)) + 1
    /\ aborted s' = None.
Proof.
  destruct (run_to (init fs1 "http://h/generate" 2 1 "prompts.txt") 10 [Enter 1 7 0 0; Tick 60])
    as [s|] eqn:Hrun; [| vm_compute in Hrun; discriminate].
  destruct (step (Resume 1 (PostRaises TimeoutException)) s) as [s'|] eqn:Hstep.
  2: { vm_compute in Hrun. injection Hrun as <-. vm_compute in Hstep. discriminate. }
  exists s, s'. split; [reflexivity |]. split; [exact Hstep |].
  destruct (exceptions_are_contained _ _ _ s (Resume 1 (PostRaises TimeoutException)) s'
              1%nat TimeoutException Hrun eq_refl Hstep)
    as (H1 & _ & _ & _ & _ & H2 & _).
  split; [exact H1 | exact H2].
Defined.

(** C10. A work item that ends through [except] changes one counter of the
    statistics, [failure_count], which grows by one; [completed_requests],
    [success_count] and [total_time] are as before, and so are the
    configuration and the pool, while the progress bar advances by one.
    The part of the item that ran before the call raised had changed none of
    these either. *)
Theorem exception_path_touches_failure_count_only
    (a : action) (s s' : run_state) (i : nat) (e : exn) :
  raises_in a s = Some (i, e) ->
  step a s = Some s' ->
  let b := self (process s) in
  let b' := self (process s') in
  failure_count b' = failure_count b + 1
  /\ completed_requests b' = completed_requests b
  /\ success_count b' = success_count b
  /\ total_time b' = total_time b
  /\ progress_bar b' = progress_bar b + 1
  /\ (url b', total_requests b', concurrency b', dataset_path b', data_pool b')
     = (url b, total_requests b, concurrency b, dataset_path b, data_pool b)
  /\ (forall j rnd ds db s1 t_start,
        step (Enter j rnd ds db) s = Some s1 ->
        tasks s1 !! j = Some (Awaiting t_start) ->
        self (process s1) = b).
Proof.
  intros Hr Hstep b b'.
  destruct (step_raising _ _ _ _ _ Hr Hstep) as (Hself & _).
  subst b b'. rewrite Hself. simpl.
  repeat split.
  intros j rnd ds db s1 t_start Hstep1 Hj.
  apply step_fires in Hstep1 as [_ Hf].
  inversion Hf; subst; simpl in *; [| reflexivity].
  rewrite list_lookup_insert_eq in Hj by (eapply lookup_lt_Some; eassumption).
  discriminate.
Qed.

Lemma exception_path_touches_failure_count_only_witness :
  exists s',
    step (Enter 0 3 0 0) state_empty_pool = Some s'
    /\ failure_count (self (process s')) = 1
    /\ completed_requests (self (process s')) = 0
    /\ progress_bar (self (process s')) = 1.
Proof.
  destruct (step (Enter 0 3 0 0) state_empty_pool) as [s'|] eqn:Hstep;
    [| vm_compute in Hstep; discriminate].
  exists s'. split; [reflexivity |].
  destruct (exception_path_touches_failure_count_only (Enter 0 3 0 0) state_empty_pool s'
              0%nat (ValueError empty_pool_message) eq_refl Hstep)
    as (H1 & H2 & _ & _ & H5 & _).
  repeat split; [exact H1 | exact H2 | exact H5].
Defined.

(** ** No deadlock: every run can be taken to its end *)

Lemma exists_unfinished (ts : list task) :
  forallb is_finished ts = false ->
  exists j t, ts !! j = Some t /\ is_finished t = false.
Proof.
  induction ts as [|t ts IH]; simpl; [discriminate |].
  destruct (is_finished t) eqn:Ht; simpl.
  - intros H. destruct (IH H) as (j & t' & Hj & Ht'). exists (S j), t'. auto.
  - intros _. exists 0%nat, t. auto.
Qed.

Lemma exists_awaiting (ts : list task) :
  (0 < count_tasks is_awaiting ts)%nat -> exists j t0, ts !! j = Some (Awaiting t0).
Proof.
  unfold count_tasks. induction ts as [|t ts IH]; simpl; [lia |].
  destruct t as [| t0 |]; simpl.
  - intros H. destruct (IH H) as (j & t0 & Hj). exists (S j), t0. exact Hj.
  - intros _. exists 0%nat, t0. reflexivity.
  - intros H. destruct (IH H) as (j & t0 & Hj). exists (S j), t0. exact Hj.
Qed.

Lemma awaiting_in_flight (ts : list task) (j : nat) (t0 : Q) :
  ts !! j = Some (Awaiting t0) -> (0 < count_tasks is_awaiting ts)%nat.
Proof.
  unfold count_tasks. revert j. induction ts as [|t ts IH]; intros [|j] Hj;
    simpl in *; try discriminate.
  - inversion Hj; subst. simpl. lia.
  - specialize (IH j Hj). destruct (is_awaiting t); simpl; lia.
Qed.

Lemma run_never_stuck (b0 : HttpBenchmark) (t0 : Q) (sched : list action) (s : run_state) :
  run_to b0 t0 sched = Some s ->
  0 < concurrency b0 ->
  all_finished s = false ->
  exists a s', acts_on a <> None /\ step a s = Some s'.
Proof.
  intros Hto Hc Hall.
  destruct (run_to_inv _ _ _ _ Hto) as ([] & _ & _).
  unfold in_flight in inv_permits0. fold (count_tasks is_awaiting (tasks s)) in inv_permits0.
  destruct (count_tasks is_awaiting (tasks s)) as [|k] eqn:Hk.
  - apply exists_unfinished in Hall as (j & t & Hj & Ht).
    destruct t as [| ts |]; try discriminate.
    + exists (Enter j 0 0 0).
      destruct (proj1 (segments_return (process s)) j 0%nat 0%Q 0%Q) as (r & w' & Hseg).
      unfold step. rewrite inv_running0, Hj.
      replace (0 <? sem_value (process s)) with true by (symmetry; apply Z.ltb_lt; lia).
      simpl. rewrite Hseg. destruct r; eexists; (split; [discriminate | reflexivity]).
    + apply awaiting_in_flight in Hj. lia.
  - destruct (exists_awaiting (tasks s)) as (j & ts & Hj); [lia |].
    exists (Resume j (Response 200)).
    unfold step. rewrite inv_running0, Hj, resume_200.
    eexists. split; [discriminate | reflexivity].
Qed.

Lemma step_remaining (a : action) (s s' : run_state) :
  acts_on a <> None -> step a s = Some s' -> (remaining s' < remaining s)%nat.
Proof.
  intros Ha Hstep. apply step_fires in Hstep as [_ Hf]. unfold remaining.
  destruct Hf as [s dt Hdt | s i rnd ds db Ht Hsem Hpool w | s i rnd ds db prompt Ht Hsem Hds Hdb Hin w
                 | s i t0 Ht w | s i t0 sc Ht Hsc w | s i t0 e Ht w];
    simpl in *; try congruence;
    match goal with
    | |- context [<[_ := ?t]> _] =>
        pose proof (count_tasks_insert is_pending _ _ _ t Ht) as Hp;
        pose proof (count_tasks_insert is_awaiting _ _ _ t Ht) as Hw
    end; simpl in *; lia.
Qed.

(** X14. With at least one permit, whatever has happened so far, the run
    can go on until [gather] returns: no permit is lost on the way, and no
    reachable state is a deadlock. *)
Lemma run_can_complete (b0 : HttpBenchmark) (t0 : Q) (sched : list action) (s : run_state) :
  0 < concurrency b0 ->
  run_to b0 t0 sched = Some s ->
  exists rest s', run_final b0 t0 (sched ++ rest) = Some s'.
Proof.
  intros Hc. remember (remaining s) as m eqn:Hm.
  revert sched s Hm. induction m as [m IH] using lt_wf_ind. intros sched s Hm Hto.
  destruct (all_finished s) eqn:Hall.
  - exists [], s. rewrite app_nil_r. unfold run_final. rewrite Hto.
    destruct (run_to_inv _ _ _ _ Hto) as ([] & _ & _).
    rewrite inv_running0, Hall. reflexivity.
  - destruct (run_never_stuck _ _ _ _ Hto Hc Hall) as (a & s1 & Ha & Hstep).
    assert (Hto1 : run_to b0 t0 (sched ++ [a]) = Some s1).
    { unfold run_to in *. destruct (run_start b0 t0); [| discriminate].
      rewrite exec_app, Hto. simpl. rewrite Hstep. reflexivity. }
    pose proof (step_remaining _ _ _ Ha Hstep) as Hlt.
    destruct (IH (remaining s1) ltac:(lia) (sched ++ [a]) s1 eq_refl Hto1) as (rest & s' & Hfin).
    exists (a :: rest), s'. rewrite <- Hfin. f_equal.
    rewrite <- app_assoc. reflexivity.
Qed.


(** * Further properties *)

(** ** The counters and the schedule *)

Lemma step_tally (a : action) (s s' : run_state) :
  step a s = Some s' ->
  let b := self (process s) in
  let b' := self (process s') in
  data_pool b' = data_pool b
  /\ success_count b' = success_count b + (if answered_200 a then 1 else 0)
  /\ completed_requests b'
     = completed_requests b + (if answered_200 a || answered_other a then 1 else 0)
  /\ failure_count b'
     = failure_count b
       + (if answered_other a || call_raised a || (entered a && no_prompt b) then 1 else 0)
  /\ progress_bar b'
     = progress_bar b
       + (if answered_200 a || answered_other a || call_raised a
             || (entered a && no_prompt b) then 1 else 0).
Proof.
  intros Hstep. apply step_fires in Hstep as [_ Hf].
  destruct Hf as [s dt Hdt | s i rnd ds db Ht Hsem Hpool w | s i rnd ds db prompt Ht Hsem Hds Hdb Hin w
                 | s i t0 Ht w | s i t0 sc Ht Hsc w | s i t0 e Ht w];
    try subst w; unfold no_prompt; simpl.
  - repeat split; lia.
  - rewrite Hpool. repeat split; lia.
  - destruct (data_pool (self (process s))); [destruct Hin |]. repeat split; lia.
  - repeat split; lia.
  - apply Z.eqb_neq in Hsc. rewrite Hsc. simpl. repeat split; lia.
  - repeat split; lia.
Qed.

Lemma tally_cons (p : action -> bool) (a : action) (rest : list action) :
  tally p (a :: rest) = (if p a then 1 else 0) + tally p rest.
Proof. unfold tally. simpl. destruct (p a); simpl; lia. Qed.

Lemma exec_tally (sched : list action) (s0 s : run_state) :
  exec sched s0 = Some s ->
  let b0 := self (process s0) in
  let b := self (process s) in
  data_pool b = data_pool b0
  /\ success_count b = success_count b0 + tally answered_200 sched
  /\ completed_requests b
     = completed_requests b0 + tally answered_200 sched + tally answered_other sched
  /\ failure_count b
     = failure_count b0 + tally answered_other sched + tally call_raised sched
       + (if no_prompt b0 then tally entered sched else 0)
  /\ progress_bar b
     = progress_bar b0 + tally answered_200 sched + tally answered_other sched
       + tally call_raised sched + (if no_prompt b0 then tally entered sched else 0).
Proof.
  revert s0. induction sched as [|a rest IH]; intros s0 Hexec; simpl in Hexec.
  - inversion Hexec; subst. unfold tally. simpl.
    destruct (no_prompt (self (process s))); repeat split; lia.
  - destruct (step a s0) as [s1|] eqn:Hstep; [| discriminate].
    destruct (step_tally _ _ _ Hstep) as (Hp1 & H1 & H2 & H3 & H4).
    destruct (IH s1 Hexec) as (Hp & G1 & G2 & G3 & G4).
    assert (Hnp : no_prompt (self (process s1)) = no_prompt (self (process s0))).
    { unfold no_prompt. rewrite Hp1. reflexivity. }
    rewrite Hnp in *. rewrite !tally_cons.
    split; [congruence |].
    destruct (answered_200 a) eqn:E1, (answered_other a) eqn:E2,
             (call_raised a) eqn:E3, (entered a) eqn:E4,
             (no_prompt (self (process s0))) eqn:E5;
      destruct a as [? ? ? ? | ? | ? [? | ?]]; simpl in *; try discriminate;
      repeat split; lia.
Qed.

(** X1. Whatever the interleaving, the counters are the tallies of what the
    network delivered: [success_count] is the number of calls answered with
    status 200, [completed_requests] the number of calls answered at all,
    [failure_count] the number of calls answered with another status or
    raising, plus, when the pool is empty, the number of work items started. *)
Theorem counters_tally_the_schedule
    (fs : filesystem) (u : string) (n c : Z) (path : string)
    (t0 : Q) (sched : list action) (s : run_state) :
  run_to (init fs u n c path) t0 sched = Some s ->
  let b := self (process s) in
  success_count b = tally answered_200 sched
  /\ completed_requests b = tally answered_200 sched + tally answered_other sched
  /\ failure_count b
     = tally answered_other sched + tally call_raised sched
       + (if no_prompt (init fs u n c path) then tally entered sched else 0).
Proof.
  unfold run_to, run_start. simpl.
  destruct (c <? 0); [discriminate |]. intros Hexec.
  destruct (exec_tally _ _ _ Hexec) as (_ & H1 & H2 & H3 & _). simpl in *.
  repeat split; lia.
Qed.

Lemma counters_tally_the_schedule_witness :
  exists s,
    run_to (init fs1 "http://h/generate" 2 1 "prompts.txt") 10 sched_timeout = Some s
    /\ success_count (self (process s)) = 1
    /\ failure_count (self (process s)) = 1.
Proof.
  destruct (run_to (init fs1 "http://h/generate" 2 1 "prompts.txt") 10 sched_timeout)
    as [s|] eqn:Hrun; [| vm_compute in Hrun; discriminate].
  exists s. split; [reflexivity |].
  destruct (counters_tally_the_schedule _ _ _ _ _ _ _ _ Hrun) as (H1 & _ & H3).
  split; [exact H1 | exact H3].
Defined.

(** ** An empty pool *)

Lemma no_post_no_posts (j : nat) (l : list event) :
  Forall (fun e => is_post e = false) l -> posts j l = [].
Proof.
  unfold posts, item_log. induction 1 as [|e l He _ IH]; [reflexivity |].
  simpl. destruct (Nat.eqb (ev_item e) j); [| exact IH].
  simpl. fold (is_post e). rewrite He. exact IH.
Qed.

Lemma count_tasks_replicate (p : task -> bool) (t : task) (n : nat) :
  p t = false -> count_tasks p (replicate n t) = 0%nat.
Proof.
  intros Hp. unfold count_tasks. induction n as [|n IH]; simpl; [reflexivity |].
  rewrite Hp. exact IH.
Qed.

Lemma empty_pool_inv (b0 : HttpBenchmark) (t0 : Q) (sched : list action) (s : run_state) :
  data_pool b0 = [] ->
  run_to b0 t0 sched = Some s ->
  count_tasks is_awaiting (tasks s) = 0%nat
  /\ count is_success (log (process s)) = 0
  /\ count is_non200 (log (process s)) = 0
  /\ Forall (fun e => is_post e = false) (log (process s)).
Proof.
  intros Hpool. unfold run_to.
  destruct (run_start b0 t0) as [s0|] eqn:Hstart; [| discriminate]. intros Hexec.
  apply (exec_preserves
           (fun s => data_pool (self (process s)) = []
                     /\ count_tasks is_awaiting (tasks s) = 0%nat
                     /\ count is_success (log (process s)) = 0
                     /\ count is_non200 (log (process s)) = 0
                     /\ Forall (fun e => is_post e = false) (log (process s))))
    with (sched := sched) (s := s0); [| | exact Hexec].
  - intros a s1 s2 (Hp & Haw & Hs & Hn & Hl) _ Hf.
    destruct Hf as [s1 dt Hdt | s1 i rnd ds db Ht Hsem Hpool' w | s1 i rnd ds db prompt Ht Hsem Hds Hdb Hin w
                   | s1 i t1 Ht w | s1 i t1 sc Ht Hsc w | s1 i t1 e Ht w];
      try subst w; simpl in *;
      try (apply awaiting_in_flight in Ht; lia);
      try (rewrite Hp in Hin; destruct Hin).
    + repeat split; assumption.
    + pose proof (count_tasks_insert is_awaiting _ _ _ Finished Ht) as Hc. simpl in Hc.
      rewrite !count_app. unfold count in *. simpl.
      repeat split; try assumption; try lia.
      apply Forall_app. split; [assumption |]. repeat constructor.
  - unfold run_start in Hstart. destruct (concurrency b0 <? 0); [discriminate |].
    inversion Hstart; subst. simpl. repeat split; try assumption; try constructor.
    apply count_tasks_replicate. reflexivity.
Qed.

(** X2. When the pool is empty (the dataset file is missing or unreadable,
    which [load_dataset] turns into an empty pool, or it holds blank lines
    only), a run that returns has counted every work item as a failure
    without sending anything: [failure_count] is [total_requests],
    [success_count], [completed_requests] and [total_time] are 0, no work
    item issued a POST, and the averages reported are 0. *)
Theorem empty_pool_fails_every_item
    (fs : filesystem) (u : string) (n c : Z) (path : string)
    (t0 : Q) (sched : list action) (s : run_state) :
  load_dataset fs path = [] ->
  0 <= n ->
  run_final (init fs u n c path) t0 sched = Some s ->
  let b := self (process s) in
  failure_count b = n
  /\ success_count b = 0
  /\ completed_requests b = 0
  /\ (total_time b == 0)%Q
  /\ (forall j, posts j (log (process s)) = [])
  /\ average_time b = 0%Q
  /\ (forall d, qps b d == 0)%Q.
Proof.
  intros Hpool Hn Hrun b.
  apply run_final_inv in Hrun as (Hto & Hall).
  destruct (run_to_inv _ _ _ _ Hto) as ([] & _ & _).
  destruct (empty_pool_inv (init fs u n c path) t0 sched s Hpool Hto)
    as (_ & Hs & Hn2 & Hposts).
  apply all_finished_count in Hall as [Hfin _].
  pose proof (count_split (log (process s))) as Hsplit.
  subst b. simpl in *. rewrite Hfin, inv_tasks0 in inv_done0.
  assert (Hsucc : success_count (self (process s)) = 0) by lia.
  assert (Hcomp : completed_requests (self (process s)) = 0) by lia.
  split; [lia |]. split; [exact Hsucc |]. split; [exact Hcomp |].
  split.
  { rewrite inv_time0. rewrite Qplus_0_l.
    clear - Hs Hn2. unfold count in *.
    induction (outcomes (log (process s))) as [|o os IH]; simpl; [reflexivity |].
    destruct o; simpl in *; try lia; apply IH; assumption. }
  split. { intros j. apply no_post_no_posts. exact Hposts. }
  split. { unfold average_time. rewrite Hsucc. reflexivity. }
  intros d. unfold qps. rewrite Hcomp.
  destruct (d ?= 0)%Q; try reflexivity; apply Qmult_0_l.
Qed.

Lemma empty_pool_fails_every_item_witness :
  exists s,
    run_final (init no_files "http://h/generate" 1 1 "missing.txt") 0 sched_empty_pool = Some s
    /\ failure_count (self (process s)) = 1
    /\ completed_requests (self (process s)) = 0.
Proof.
  destruct (run_final (init no_files "http://h/generate" 1 1 "missing.txt") 0 sched_empty_pool)
    as [s|] eqn:Hrun; [| vm_compute in Hrun; discriminate].
  exists s. split; [reflexivity |].
  destruct (empty_pool_fails_every_item no_files "http://h/generate" 1 1 "missing.txt"
              0 sched_empty_pool s eq_refl ltac:(lia) Hrun) as (H1 & _ & H3 & _).
  split; [exact H1 | exact H3].
Defined.

(** ** Signs and bounds *)

Lemma durations_inv (b0 : HttpBenchmark) (t0 : Q) (sched : list action) (s : run_state) :
  run_to b0 t0 sched = Some s ->
  Forall nonneg_outcome (outcomes (log (process s))).
Proof.
  unfold run_to.
  destruct (run_start b0 t0) as [s0|] eqn:Hstart; [| discriminate]. intros Hexec.
  apply (exec_preserves
           (fun s => run_inv b0 s /\ items_inv b0 s
                     /\ Forall nonneg_outcome (outcomes (log (process s)))))
    with (sched := sched) (s := s0); [| | exact Hexec].
  - intros a s1 s2 (Hinv & Hitems & Hd) Hab Hf. split; [| split].
    + eapply run_inv_step; eassumption.
    + eapply items_inv_step; eassumption.
    + assert (Hstart_le : forall i t1, tasks s1 !! i = Some (Awaiting t1) ->
                (0 <= clock (process s1) - t1)%Q).
      { intros i t1 Ht. destruct (Hitems i _ Ht) as (p & issued & _ & H1 & H2 & _).
        unfold Qminus. rewrite <- Qle_minus_iff. eapply Qle_trans; eassumption. }
      destruct Hf as [s1 dt Hdt | s1 i rnd ds db Ht Hsem Hpool' w | s1 i rnd ds db prompt Ht Hsem Hds Hdb Hin w
                     | s1 i t1 Ht w | s1 i t1 sc Ht Hsc w | s1 i t1 e Ht w];
        try subst w; simpl; rewrite ?outcomes_app; simpl; try assumption;
        apply Forall_app; (split; [assumption |]); repeat constructor;
        simpl; eauto.
  - split; [| split].
    + eapply run_inv_start; eassumption.
    + eapply items_inv_start; eassumption.
    + unfold run_start in Hstart. destruct (concurrency b0 <? 0); [discriminate |].
      inversion Hstart; subst. simpl. constructor.
Qed.

Lemma sum_elapsed_nonneg (p : outcome -> bool) (os : list outcome) :
  Forall nonneg_outcome os -> (0 <= sum_elapsed p os)%Q.
Proof.
  induction 1 as [|o os Ho _ IH]; simpl; [apply Qle_refl |].
  destruct o; simpl in Ho; try destruct (p _); try assumption;
    (rewrite <- (Qplus_0_l 0); apply Qplus_le_compat; assumption).
Qed.

(** X3. Nothing that [run_benchmark] reports is negative: the total
    duration, the average response time and the QPS are at least 0, and so
    are [total_time] and the three counters. *)
Theorem reported_statistics_nonnegative
    (fs : filesystem) (u : string) (n c : Z) (path : string)
    (t0 : Q) (sched : list action) (s : run_state) :
  run_final (init fs u n c path) t0 sched = Some s ->
  let b := self (process s) in
  let r := summarize b t0 (clock (process s)) in
  (0 <= total_duration r)%Q
  /\ (0 <= report_average_time r)%Q
  /\ (0 <= report_qps r)%Q
  /\ (0 <= total_time b)%Q
  /\ 0 <= success_count b /\ 0 <= failure_count b /\ 0 <= completed_requests b.
Proof.
  intros Hrun b r.
  apply run_final_inv in Hrun as (Hto & Hall).
  destruct (run_to_inv _ _ _ _ Hto) as ([] & _ & Hclock).
  pose proof (durations_inv _ _ _ _ Hto) as Hd.
  assert (Htime : (0 <= total_time (self (process s)))%Q).
  { rewrite inv_time0. simpl. rewrite Qplus_0_l. apply sum_elapsed_nonneg. exact Hd. }
  assert (Hcount : forall p l, 0 <= count p l) by (intros; unfold count; lia).
  pose proof (Hcount is_success (log (process s))).
  pose proof (Hcount is_non200 (log (process s))).
  pose proof (Hcount is_exception (log (process s))).
  assert (Hdur : (0 <= clock (process s) - t0)%Q).
  { unfold Qminus. rewrite <- Qle_minus_iff. exact Hclock. }
  subst b r. simpl in *.
  split; [exact Hdur |].
  split.
  { unfold average_time. destruct (0 <? success_count (self (process s))) eqn:E;
      [| apply Qle_refl].
    apply Z.ltb_lt in E. apply Qmult_le_0_compat; [exact Htime |].
    apply Qinv_le_0_compat. rewrite <- (Zle_Qle 0). lia. }
  split.
  { unfold qps. destruct (clock (process s) - t0 ?= 0)%Q; try apply Qle_refl.
    apply Qmult_le_0_compat.
    - rewrite <- (Zle_Qle 0). lia.
    - apply Qinv_le_0_compat. exact Hdur. }
  split; [exact Htime |]. repeat split; lia.
Qed.

Lemma reported_statistics_nonnegative_witness :
  exists s,
    run_final (init fs1 "http://h/generate" 2 1 "prompts.txt") 10 sched1 = Some s
    /\ (0 <= average_time (self (process s)))%Q.
Proof.
  destruct (run_final (init fs1 "http://h/generate" 2 1 "prompts.txt") 10 sched1)
    as [s|] eqn:Hrun; [| vm_compute in Hrun; discriminate].
  exists s. split; [reflexivity |].
  destruct (reported_statistics_nonnegative _ _ _ _ _ _ _ _ Hrun) as (_ & H & _).
  exact H.
Defined.

Lemma count_tasks_le (p : task -> bool) (ts : list task) :
  (count_tasks p ts <= length ts)%nat.
Proof. unfold count_tasks. apply List.filter_length_le. Qed.

Lemma count_finished_all (ts : list task) :
  count_tasks is_finished ts = length ts <-> forallb is_finished ts = true.
Proof.
  unfold count_tasks. induction ts as [|t ts IH]; simpl; [tauto |].
  pose proof (List.filter_length_le is_finished ts) as Hle.
  destruct (is_finished t); simpl.
  - rewrite <- IH. split; lia.
  - split; [lia | discriminate].
Qed.

(** X4. At every moment of a run the progress bar shows the number of work
    items that have ended, which is [success_count + failure_count]; it never
    passes [total_requests] and reaches it exactly when every work item has
    ended.  Meanwhile [success_count <= completed_requests <= progress_bar]. *)
Theorem progress_bar_counts_ended_items
    (fs : filesystem) (u : string) (n c : Z) (path : string)
    (t0 : Q) (sched : list action) (s : run_state) :
  0 <= n ->
  run_to (init fs u n c path) t0 sched = Some s ->
  let b := self (process s) in
  progress_bar b = Z.of_nat (count_tasks is_finished (tasks s))
  /\ progress_bar b = success_count b + failure_count b
  /\ 0 <= progress_bar b <= n
  /\ success_count b <= completed_requests b <= progress_bar b
  /\ (progress_bar b = n <-> all_finished s = true).
Proof.
  intros Hn Hto b.
  destruct (run_to_inv _ _ _ _ Hto) as ([] & _ & _).
  pose proof (count_split (log (process s))) as Hsplit.
  pose proof (count_tasks_le is_finished (tasks s)) as Hle.
  pose proof (count_finished_all (tasks s)) as Hall.
  assert (Hcount : forall p l, 0 <= count p l) by (intros; unfold count; lia).
  pose proof (Hcount is_success (log (process s))).
  pose proof (Hcount is_non200 (log (process s))).
  pose proof (Hcount is_exception (log (process s))).
  subst b. simpl in *. unfold all_finished. rewrite <- Hall.
  repeat split; try lia.
Qed.

Lemma progress_bar_counts_ended_items_witness :
  exists s,
    run_to (init fs1 "http://h/generate" 2 1 "prompts.txt") 10 [Enter 1 7 0 0; Tick 2] = Some s
    /\ progress_bar (self (process s)) = 0
    /\ all_finished s = false.
Proof.
  destruct (run_to (init fs1 "http://h/generate" 2 1 "prompts.txt") 10 [Enter 1 7 0 0; Tick 2])
    as [s|] eqn:Hrun; [| vm_compute in Hrun; discriminate].
  exists s. split; [reflexivity |].
  destruct (progress_bar_counts_ended_items fs1 "http://h/generate" 2 1 "prompts.txt" 10
              [Enter 1 7 0 0; Tick 2] s ltac:(lia) Hrun)
    as (H1 & _ & _ & _ & H5).
  assert (Hfin : count_tasks is_finished (tasks s) = 0%nat).
  { vm_compute in Hrun. injection Hrun as <-. reflexivity. }
  rewrite Hfin in H1. split; [exact H1 |].
  destruct (all_finished s); [| reflexivity].
  exfalso. simpl in *. assert (E : true = true) by reflexivity. apply H5 in E. lia.
Defined.

(** ** What a run leaves alone *)

(** X5. A run never writes the configuration of the benchmark nor its
    pool: in every state it reaches, [url], [total_requests], [concurrency],
    [dataset_path] and [data_pool] are those the run started with. *)
Theorem run_keeps_configuration
    (b0 : HttpBenchmark) (t0 : Q) (sched : list action) (s : run_state) :
  run_to b0 t0 sched = Some s ->
  let b := self (process s) in
  url b = url b0 /\ total_requests b = total_requests b0
  /\ concurrency b = concurrency b0 /\ dataset_path b = dataset_path b0
  /\ data_pool b = data_pool b0.
Proof.
  unfold run_to.
  destruct (run_start b0 t0) as [s0|] eqn:Hstart; [| discriminate]. intros Hexec.
  apply (exec_preserves
           (fun s => let b := self (process s) in
                     url b = url b0 /\ total_requests b = total_requests b0
                     /\ concurrency b = concurrency b0 /\ dataset_path b = dataset_path b0
                     /\ data_pool b = data_pool b0))
    with (sched := sched) (s := s0); [| | exact Hexec].
  - intros a s1 s2 H _ Hf. destruct Hf; simpl in *; exact H.
  - unfold run_start in Hstart. destruct (concurrency b0 <? 0); [discriminate |].
    inversion Hstart; subst. simpl. repeat split.
Qed.

Lemma run_keeps_configuration_witness :
  exists s,
    run_to (init fs1 "http://h/generate" 2 1 "prompts.txt") 10 sched1 = Some s
    /\ data_pool (self (process s)) = ["hello"; "world"; "foo"]%string.
Proof.
  destruct (run_to (init fs1 "http://h/generate" 2 1 "prompts.txt") 10 sched1)
    as [s|] eqn:Hrun; [| vm_compute in Hrun; discriminate].
  exists s. split; [reflexivity |].
  destruct (run_keeps_configuration _ _ _ _ Hrun) as (_ & _ & _ & _ & H).
  rewrite H. reflexivity.
Defined.

(** ** Degenerate configurations *)

Lemma lookup_all_pending (n j : nat) (t : task) :
  replicate n Pending !! j = Some t -> t = Pending.
Proof. intros H. apply lookup_replicate in H as [-> _]. reflexivity. Qed.

(** X6. Without a positive [concurrency] nothing is ever sent and a run of
    at least one work item never returns: a negative value makes the
    semaphore constructor raise before any task exists, and with the value 0
    every task waits for a permit for ever, so in every state the run reaches
    the log is empty, the object is untouched, and [gather] has not returned. *)
Theorem no_permit_no_progress
    (b0 : HttpBenchmark) (t0 : Q) (sched : list action) :
  concurrency b0 <= 0 ->
  0 < total_requests b0 ->
  run_final b0 t0 sched = None
  /\ run_benchmark b0 t0 sched = None
  /\ (concurrency b0 < 0 -> exists msg, run_start b0 t0 = Raised (ValueError msg))
  /\ (forall s, run_to b0 t0 sched = Some s ->
        log (process s) = [] /\ self (process s) = b0 /\ all_finished s = false).
Proof.
  intros Hc Hn.
  assert (Hidle : forall s, run_to b0 t0 sched = Some s ->
            log (process s) = [] /\ self (process s) = b0 /\ all_finished s = false).
  { unfold run_to, run_start. destruct (concurrency b0 <? 0) eqn:Hneg; [discriminate |].
    apply Z.ltb_ge in Hneg. intros s Hexec.
    assert (H : log (process s) = [] /\ self (process s) = b0
                /\ sem_value (process s) = 0
                /\ tasks s = replicate (Z.to_nat (total_requests b0)) Pending).
    { apply (exec_preserves
               (fun s => log (process s) = [] /\ self (process s) = b0
                         /\ sem_value (process s) = 0
                         /\ tasks s = replicate (Z.to_nat (total_requests b0)) Pending))
        with (sched := sched) (3 := Hexec).
      - intros a s1 s2 (Hl & Hs & Hv & Ht) _ Hf.
        destruct Hf as [? ? ? | ? ? ? ? ? Hk Hsem | ? ? ? ? ? ? Hk Hsem | ? ? ? Hk | ? ? ? ? Hk | ? ? ? ? Hk];
          simpl in *; try lia;
          try (rewrite Ht in Hk; apply lookup_all_pending in Hk; discriminate).
        repeat split; assumption.
      - simpl. repeat split. lia. }
    destruct H as (Hl & Hs & _ & Ht). repeat split; try assumption.
    unfold all_finished. rewrite Ht.
    destruct (Z.to_nat (total_requests b0)) eqn:E; [lia | reflexivity]. }
  assert (Hfinal : run_final b0 t0 sched = None).
  { unfold run_final. destruct (run_to b0 t0 sched) as [s|] eqn:Hto; [| reflexivity].
    destruct (Hidle s eq_refl) as (_ & _ & Hall). rewrite Hall.
    destruct (aborted s); reflexivity. }
  split; [exact Hfinal |].
  split. { unfold run_benchmark. rewrite Hfinal. reflexivity. }
  split; [| exact Hidle].
  intros Hneg. unfold run_start. apply Z.ltb_lt in Hneg. rewrite Hneg. eauto.
Qed.

Lemma no_permit_no_progress_witness :
  run_final (init fs1 "http://h/generate" 3 0 "prompts.txt") 10 [Tick 5; Tick 60] = None.
Proof.
  apply (no_permit_no_progress (init fs1 "http://h/generate" 3 0 "prompts.txt") 10
           [Tick 5; Tick 60]); simpl; lia.
Defined.

(** X7. With [total_requests] 0 or negative the loop of line 80 creates no
    task: [gather] returns at once, and whatever time passes the run sends
    nothing and leaves the object as it was. *)
Theorem no_request_no_work
    (b0 : HttpBenchmark) (t0 : Q) (sched : list action) (s : run_state) :
  total_requests b0 <= 0 ->
  run_to b0 t0 sched = Some s ->
  self (process s) = b0 /\ log (process s) = [] /\ tasks s = []
  /\ run_final b0 t0 sched = Some s
  /\ exists s0, run_final b0 t0 [] = Some s0.
Proof.
  intros Hn Hto.
  assert (H : self (process s) = b0 /\ log (process s) = [] /\ tasks s = []
              /\ aborted s = None).
  { revert Hto. unfold run_to, run_start.
    destruct (concurrency b0 <? 0); [discriminate |]. intros Hexec.
    apply (exec_preserves
             (fun s => self (process s) = b0 /\ log (process s) = [] /\ tasks s = []
                       /\ aborted s = None))
      with (sched := sched) (3 := Hexec).
    - intros a s1 s2 (Hs & Hl & Ht & Hab) _ Hf.
      destruct Hf as [? ? ? | ? ? ? ? ? Hk | ? ? ? ? ? ? Hk | ? ? ? Hk | ? ? ? ? Hk | ? ? ? ? Hk];
        simpl in *; try (rewrite Ht in Hk; discriminate).
      repeat split; assumption.
    - simpl. repeat split. replace (Z.to_nat (total_requests b0)) with 0%nat by lia.
      reflexivity. }
  destruct H as (Hs & Hl & Ht & Hab).
  split; [exact Hs |]. split; [exact Hl |]. split; [exact Ht |].
  split.
  { unfold run_final. rewrite Hto, Hab. unfold all_finished. rewrite Ht. reflexivity. }
  revert Hto. unfold run_final, run_to, run_start.
  destruct (concurrency b0 <? 0); [discriminate |]. intros _. simpl.
  replace (Z.to_nat (total_requests b0)) with 0%nat by lia. simpl. eauto.
Qed.

Lemma no_request_no_work_witness :
  exists s,
    run_to (init fs1 "http://h/generate" 0 4 "prompts.txt") 10 [Tick 1] = Some s
    /\ log (process s) = [] /\ run_final (init fs1 "http://h/generate" 0 4 "prompts.txt") 10 [Tick 1] = Some s.
Proof.
  destruct (run_to (init fs1 "http://h/generate" 0 4 "prompts.txt") 10 [Tick 1])
    as [s|] eqn:Hrun; [| vm_compute in Hrun; discriminate].
  exists s. split; [reflexivity |].
  destruct (no_request_no_work (init fs1 "http://h/generate" 0 4 "prompts.txt") 10 [Tick 1] s
              ltac:(simpl; lia) Hrun) as (_ & H2 & _ & H4 & _).
  split; [exact H2 | exact H4].
Defined.

(** ** The gate lets [concurrency] calls through *)

Lemma exists_pending (ts : list task) :
  (0 < count_tasks is_pending ts)%nat -> exists j, ts !! j = Some Pending.
Proof.
  unfold count_tasks. induction ts as [|t ts IH]; simpl; [lia |].
  destruct t as [| t1 |]; simpl.
  - intros _. exists 0%nat. reflexivity.
  - intros H. destruct (IH H) as (j & Hj). exists (S j). exact Hj.
  - intros H. destruct (IH H) as (j & Hj). exists (S j). exact Hj.
Qed.

Lemma admit_one_more (b0 : HttpBenchmark) (t0 : Q) (sched : list action) (s : run_state) :
  data_pool b0 <> [] ->
  run_to b0 t0 sched = Some s ->
  Z.of_nat (in_flight s) < concurrency b0 ->
  (0 < count_tasks is_pending (tasks s))%nat ->
  exists j s',
    run_to b0 t0 (sched ++ [Enter j 0 0 0]) = Some s'
    /\ in_flight s' = S (in_flight s)
    /\ S (count_tasks is_pending (tasks s')) = count_tasks is_pending (tasks s).
Proof.
  intros Hpool Hto Hroom Hpending.
  destruct (run_to_inv _ _ _ _ Hto) as ([] & _ & _).
  destruct (exists_pending _ Hpending) as (j & Hj).
  destruct (get_random_prompt_member (self (process s)) 0) as (p & Hp & _).
  { rewrite inv_pool0. exact Hpool. }
  exists j. eexists. split; [| split].
  - unfold run_to in *. destruct (run_start b0 t0); [| discriminate].
    rewrite exec_app, Hto. simpl. unfold step.
    rewrite inv_running0, Hj.
    replace (0 <? sem_value (process s)) with true by (symmetry; apply Z.ltb_lt; lia).
    simpl. rewrite (enter_reaches_post _ _ _ _ _ _ Hp). reflexivity.
  - unfold in_flight. simpl.
    pose proof (count_tasks_insert is_awaiting _ _ _ (Awaiting (clock (process s))) Hj) as H.
    unfold count_tasks in H. simpl in H. lia.
  - simpl.
    pose proof (count_tasks_insert is_pending _ _ _ (Awaiting (clock (process s))) Hj) as H.
    simpl in H. lia.
Qed.

Lemma admit_up_to (b0 : HttpBenchmark) (t0 : Q) (k : nat) :
  data_pool b0 <> [] ->
  Z.of_nat k <= concurrency b0 ->
  Z.of_nat k <= total_requests b0 ->
  exists sched s,
    run_to b0 t0 sched = Some s /\ in_flight s = k
    /\ (count_tasks is_pending (tasks s) + k = Z.to_nat (total_requests b0))%nat.
Proof.
  intros Hpool. induction k as [|k IH]; intros Hc Hn.
  - exists []. eexists. unfold run_to, run_start.
    replace (concurrency b0 <? 0) with false by (symmetry; apply Z.ltb_ge; lia).
    simpl. split; [reflexivity |]. unfold in_flight. simpl.
    fold (count_tasks is_awaiting (replicate (Z.to_nat (total_requests b0)) Pending)).
    rewrite count_tasks_replicate by reflexivity. split; [reflexivity |].
    unfold count_tasks.
    induction (Z.to_nat (total_requests b0)) as [|m IHm]; simpl; [reflexivity |].
    simpl in IHm. lia.
  - destruct IH as (sched & s & Hto & Hfl & Hpend); [lia | lia |].
    destruct (admit_one_more b0 t0 sched s Hpool Hto) as (j & s' & Hto' & Hfl' & Hpend');
      [lia | lia |].
    exists (sched ++ [Enter j 0 0 0]), s'. split; [exact Hto' |]. split; lia.
Qed.

(** X8. The bound of the gate is reached: with a pool that is not empty,
    some interleaving has [min(concurrency, total_requests)] HTTP calls
    outstanding at the same time, so the semaphore holds back no more than
    it must, and with [concurrency >= total_requests] every call can be in
    flight at once. *)
Theorem concurrency_bound_is_reached (b0 : HttpBenchmark) (t0 : Q) :
  data_pool b0 <> [] ->
  0 <= concurrency b0 ->
  0 <= total_requests b0 ->
  exists sched s,
    run_to b0 t0 sched = Some s
    /\ Z.of_nat (in_flight s) = Z.min (concurrency b0) (total_requests b0).
Proof.
  intros Hpool Hc Hn.
  destruct (admit_up_to b0 t0 (Z.to_nat (Z.min (concurrency b0) (total_requests b0))) Hpool)
    as (sched & s & Hto & Hfl & _); [lia | lia |].
  exists sched, s. split; [exact Hto |]. lia.
Qed.

Lemma concurrency_bound_is_reached_witness :
  exists sched s,
    run_to (init fs1 "http://h/generate" 5 2 "prompts.txt") 10 sched = Some s
    /\ Z.of_nat (in_flight s) = 2.
Proof.
  apply (concurrency_bound_is_reached (init fs1 "http://h/generate" 5 2 "prompts.txt") 10).
  - vm_compute. discriminate.
  - simpl. lia.
  - simpl. lia.
Defined.

(** ** The average when every answer has status 200 *)

Lemma sum_elapsed_success_only (os : list outcome) :
  length (List.filter is_non200 os) = 0%nat ->
  (sum_elapsed everything os == sum_elapsed is_success os)%Q.
Proof.
  induction os as [|o os IH]; simpl; [reflexivity |].
  destruct o; simpl; intros H; try discriminate; rewrite IH by assumption; reflexivity.
Qed.

(** X9. When no call is answered with a status other than 200, the average
    that [run_benchmark] reports is the mean of the elapsed durations of the
    successful calls (0 when there is none); work items that raised do not
    enter it. *)
Theorem average_time_is_the_mean_without_non200
    (fs : filesystem) (u : string) (n c : Z) (path : string)
    (t0 : Q) (sched : list action) (s : run_state) :
  run_final (init fs u n c path) t0 sched = Some s ->
  count is_non200 (log (process s)) = 0 ->
  (average_time (self (process s))
   == spec_average_response_time (log (process s)))%Q.
Proof.
  intros Hrun Hnon.
  apply run_final_inv in Hrun as (Hto & _).
  destruct (run_to_inv _ _ _ _ Hto) as ([] & _ & _).
  simpl in *.
  assert (Hsucc : success_count (self (process s)) = count is_success (log (process s)))
    by lia.
  unfold average_time, spec_average_response_time. rewrite Hsucc.
  destruct (0 <? count is_success (log (process s))); [| reflexivity].
  rewrite inv_time0, Qplus_0_l, sum_elapsed_success_only; [reflexivity |].
  unfold count in Hnon. lia.
Qed.

Lemma average_time_is_the_mean_without_non200_witness :
  exists s,
    run_final (init fs1 "http://h/generate" 2 1 "prompts.txt") 10 sched_timeout = Some s
    /\ (average_time (self (process s)) == 1)%Q.
Proof.
  destruct (run_final (init fs1 "http://h/generate" 2 1 "prompts.txt") 10 sched_timeout)
    as [s|] eqn:Hrun; [| vm_compute in Hrun; discriminate].
  exists s. split; [reflexivity |].
  assert (Hnon : count is_non200 (log (process s)) = 0).
  { vm_compute in Hrun. injection Hrun as <-. reflexivity. }
  rewrite (average_time_is_the_mean_without_non200 _ _ _ _ _ _ _ _ Hrun Hnon).
  vm_compute in Hrun. injection Hrun as <-. reflexivity.
Defined.

(** ** Sampling reaches the whole pool *)



(** ** Datasets written and loaded *)

Lemma has_char_app (c : ascii) (a b : string) :
  has_char c (a ++ b) = has_char c a || has_char c b.
Proof.
  induction a as [|c' a IH]; simpl; [reflexivity |].
  rewrite IH. apply orb_assoc.
Qed.

Lemma lstrip_id (s : string) : starts_with_space s = false -> Text.lstrip s = s.
Proof. destruct s as [|c r]; simpl; [reflexivity |]. intros ->. reflexivity. Qed.

Lemma rstrip_id (s : string) : ends_with_space s = false -> Text.rstrip s = s.
Proof.
  induction s as [|c r IH]; [reflexivity |].
  destruct r as [|c' r'].
  - simpl. intros ->. reflexivity.
  - intros H. change (ends_with_space (String c' r') = false) in H.
    specialize (IH H). change (Text.rstrip (String c (String c' r')))
      with (match Text.rstrip (String c' r') with
            | EmptyString => if Text.isspace c then EmptyString else String c EmptyString
            | r0 => String c r0
            end).
    rewrite IH. reflexivity.
Qed.

Lemma rstrip_all_space (t : string) : all_space t = true -> Text.rstrip t = EmptyString.
Proof.
  induction t as [|c r IH]; simpl; [reflexivity |].
  intros H. apply andb_true_iff in H as [Hc Hr]. rewrite (IH Hr), Hc. reflexivity.
Qed.

Lemma rstrip_app_space (s t : string) :
  all_space t = true -> Text.rstrip (s ++ t) = Text.rstrip s.
Proof.
  intros Ht. induction s as [|c r IH]; simpl.
  - apply rstrip_all_space. exact Ht.
  - rewrite IH. reflexivity.
Qed.

Lemma strip_written_line (p : string) :
  p <> EmptyString -> starts_with_space p = false -> ends_with_space p = false ->
  Text.strip (p ++ nl) = p.
Proof.
  intros Hne Hs He. unfold Text.strip.
  assert (Hl : Text.lstrip (p ++ nl) = (p ++ nl)%string).
  { apply lstrip_id. destruct p; [congruence | exact Hs]. }
  rewrite Hl, rstrip_app_space by reflexivity. apply rstrip_id. exact He.
Qed.

Lemma file_lines_written_line (p rest : string) :
  has_char Text.LF p = false ->
  Text.file_lines (p ++ String Text.LF rest)
  = (p ++ String Text.LF EmptyString)%string :: Text.file_lines rest.
Proof.
  induction p as [|c p IH]; simpl.
  - intros _. reflexivity.
  - intros H. apply orb_false_iff in H as [Hc Hp]. rewrite Hc.
    rewrite (IH Hp). reflexivity.
Qed.

Lemma universal_newlines_id (s : string) :
  has_char Text.CR s = false -> Text.universal_newlines s = s.
Proof.
  induction s as [|c r IH]; simpl; [reflexivity |].
  intros H. apply orb_false_iff in H as [Hc Hr]. rewrite Hc, (IH Hr). reflexivity.
Qed.

Lemma dataset_text_no_cr (pool : list string) :
  Forall prompt_ok pool -> has_char Text.CR (dataset_text pool) = false.
Proof.
  induction 1 as [|p pool (_ & _ & _ & _ & Hcr) _ IH]; [reflexivity |].
  change (dataset_text (p :: pool)) with (p ++ String Text.LF (dataset_text pool))%string.
  rewrite has_char_app, Hcr. simpl. exact IH.
Qed.

Lemma dataset_text_lines (pool : list string) :
  Forall prompt_ok pool ->
  stripped_nonblank (Text.file_lines (dataset_text pool)) = pool.
Proof.
  induction 1 as [|p pool (Hne & Hs & He & Hlf & _) _ IH]; [reflexivity |].
  change (dataset_text (p :: pool)) with (p ++ String Text.LF (dataset_text pool))%string.
  rewrite (file_lines_written_line _ _ Hlf).
  change (p ++ String Text.LF EmptyString)%string with (p ++ nl)%string.
  cbn [stripped_nonblank].
  rewrite (strip_written_line _ Hne Hs He), IH.
  destruct p; [congruence | reflexivity].
Qed.

Lemma load_dataset_text (fs : filesystem) (path : string) (pool : list string) :
  Forall prompt_ok pool ->
  fs path = Some (dataset_text pool) ->
  load_dataset fs path = pool.
Proof.
  intros Hok Hread. unfold load_dataset. rewrite Hread.
  rewrite universal_newlines_id by (apply dataset_text_no_cr; exact Hok).
  apply dataset_text_lines. exact Hok.
Qed.

(** X11. Writing and loading round-trip: a pool of prompts that are not
    empty, have no whitespace at either end and no line break inside, written
    one prompt per LF-ended line, is loaded back as the same pool, in the
    same order. *)
Theorem dataset_round_trip (fs : filesystem) (path : string) (pool : list string) :
  Forall prompt_ok pool ->
  fs path = Some (dataset_text pool) ->
  load_dataset fs path = pool.
Proof. apply load_dataset_text. Qed.

Lemma dataset_round_trip_witness :
  load_dataset (fun _ => Some (dataset_text ["a b"; "c"]%string)) "any.txt"
  = ["a b"; "c"]%string.
Proof.
  apply (dataset_round_trip (fun _ => Some (dataset_text ["a b"; "c"]%string)) "any.txt").
  - repeat constructor; try discriminate.
  - reflexivity.
Defined.

Lemma universal_newlines_crlf (s : string) :
  has_char Text.CR s = false -> Text.universal_newlines (to_crlf s) = s.
Proof.
  induction s as [|c r IH]; simpl; [reflexivity |].
  intros H. apply orb_false_iff in H as [Hc Hr].
  destruct (Ascii.eqb c Text.LF) eqn:Hlf.
  - apply Ascii.eqb_eq in Hlf. subst c. simpl. rewrite (IH Hr). reflexivity.
  - simpl. rewrite Hc, (IH Hr). reflexivity.
Qed.

(** X12. Line ends do not matter: a dataset saved with CR LF line ends
    loads to the same pool as the same text with LF line ends. *)
Theorem load_dataset_ignores_crlf (fs fs' : filesystem) (path text : string) :
  has_char Text.CR text = false ->
  fs path = Some text ->
  fs' path = Some (to_crlf text) ->
  load_dataset fs' path = load_dataset fs path.
Proof.
  intros Hcr Hread Hread'. unfold load_dataset. rewrite Hread, Hread'.
  rewrite (universal_newlines_crlf _ Hcr), (universal_newlines_id _ Hcr). reflexivity.
Qed.

Lemma load_dataset_ignores_crlf_witness :
  load_dataset (fun _ => Some (to_crlf ("hello" ++ nl ++ nl ++ "  world  " ++ nl ++ "foo")))
    "prompts.txt"
  = load_dataset fs1 "prompts.txt".
Proof.
  apply (load_dataset_ignores_crlf fs1 _ "prompts.txt"
           ("hello" ++ nl ++ nl ++ "  world  " ++ nl ++ "foo")%string);
    reflexivity.
Defined.

(** ** What a loaded pool holds *)

Lemma file_lines_lf_only_last (s : string) :
  Forall (fun l => lf_only_last l = true) (Text.file_lines s).
Proof.
  induction s as [|c r IH]; simpl; [constructor |].
  destruct (Ascii.eqb c Text.LF) eqn:Hc.
  - constructor; [reflexivity | exact IH].
  - destruct (Text.file_lines r) as [|l ls]; [repeat constructor |].
    inversion IH as [|? ? Hl Hls]; subst. constructor; [| exact Hls].
    simpl. rewrite Hc. simpl. destruct l; [reflexivity | exact Hl].
Qed.

Lemma lstrip_lf_only_last (s : string) :
  lf_only_last s = true -> lf_only_last (Text.lstrip s) = true.
Proof.
  induction s as [|c r IH]; [reflexivity |].
  intros H. cbn [Text.lstrip]. destruct (Text.isspace c); [| exact H].
  apply IH. destruct r as [|c' r']; [reflexivity |].
  simpl in H. apply andb_true_iff in H as [_ H]. exact H.
Qed.

Lemma space_is_not_lf (c : ascii) : Text.isspace c = false -> Ascii.eqb c Text.LF = false.
Proof.
  intros H. destruct (Ascii.eqb c Text.LF) eqn:E; [| reflexivity].
  apply Ascii.eqb_eq in E. subst c. discriminate.
Qed.

Lemma rstrip_no_lf (s : string) :
  lf_only_last s = true -> has_char Text.LF (Text.rstrip s) = false.
Proof.
  induction s as [|c r IH]; [reflexivity |].
  intros H. cbn [Text.rstrip].
  destruct (Text.rstrip r) as [|c' r'] eqn:Hr.
  - destruct (Text.isspace c) eqn:Hc; [reflexivity |].
    simpl. rewrite (space_is_not_lf _ Hc). reflexivity.
  - destruct r as [|c0 r0]; [discriminate |].
    simpl in H. apply andb_true_iff in H as [Hc H].
    apply negb_true_iff in Hc.
    change (has_char Text.LF (String c (String c' r')))
      with (Ascii.eqb c Text.LF || has_char Text.LF (String c' r')).
    rewrite Hc. simpl. apply IH. exact H.
Qed.

Lemma lstrip_keeps_out (c : ascii) (s : string) :
  has_char c s = false -> has_char c (Text.lstrip s) = false.
Proof.
  induction s as [|c' r IH]; [reflexivity |].
  intros H. cbn [Text.lstrip]. destruct (Text.isspace c'); [| exact H].
  apply IH. simpl in H. apply orb_false_iff in H as [_ H]. exact H.
Qed.

Lemma rstrip_keeps_out (c : ascii) (s : string) :
  has_char c s = false -> has_char c (Text.rstrip s) = false.
Proof.
  induction s as [|c' r IH]; [reflexivity |].
  intros H. simpl in H. apply orb_false_iff in H as [Hc H].
  cbn [Text.rstrip]. specialize (IH H).
  destruct (Text.rstrip r) as [|c1 r1].
  - destruct (Text.isspace c'); [reflexivity |]. simpl. rewrite Hc. reflexivity.
  - change (has_char c (String c' (String c1 r1)))
      with (Ascii.eqb c' c || has_char c (String c1 r1)).
    rewrite Hc, IH. reflexivity.
Qed.

Lemma file_lines_keep_out (c : ascii) (s : string) :
  has_char c s = false -> Forall (fun l => has_char c l = false) (Text.file_lines s).
Proof.
  induction s as [|c' r IH]; simpl; [constructor |].
  intros H. apply orb_false_iff in H as [Hc H]. specialize (IH H).
  destruct (Ascii.eqb c' Text.LF).
  - constructor; [simpl; rewrite Hc; reflexivity | exact IH].
  - destruct (Text.file_lines r) as [|l ls].
    + repeat constructor. simpl. rewrite Hc. reflexivity.
    + inversion IH as [|? ? Hl Hls]; subst. constructor; [| exact Hls].
      simpl. rewrite Hc, Hl. reflexivity.
Qed.

Lemma universal_newlines_no_cr_upto (n : nat) (s : string) :
  (String.length s <= n)%nat -> has_char Text.CR (Text.universal_newlines s) = false.
Proof.
  revert s. induction n as [|n IH]; intros s Hlen.
  - destruct s; [reflexivity | simpl in Hlen; lia].
  - destruct s as [|c r]; [reflexivity |]. simpl in Hlen.
    cbn [Text.universal_newlines].
    destruct (Ascii.eqb c Text.CR) eqn:Hc.
    + destruct r as [|c' r']; [reflexivity |]. simpl in Hlen.
      destruct (Ascii.eqb c' Text.LF).
      * simpl. apply IH. lia.
      * change (has_char Text.CR (String Text.LF (Text.universal_newlines (String c' r'))))
          with (Ascii.eqb Text.LF Text.CR
                || has_char Text.CR (Text.universal_newlines (String c' r'))).
        change (Ascii.eqb Text.LF Text.CR) with false. cbn [orb].
        apply IH. simpl. lia.
    + change (has_char Text.CR (String c (Text.universal_newlines r)))
        with (Ascii.eqb c Text.CR || has_char Text.CR (Text.universal_newlines r)).
      rewrite Hc. simpl. apply IH. lia.
Qed.

Lemma stripped_line_ok (line : string) :
  lf_only_last line = true -> has_char Text.CR line = false ->
  Text.strip line <> EmptyString -> prompt_ok (Text.strip line).
Proof.
  intros Hlf Hcr Hne.
  destruct (strip_spec line) as (pre & post & _ & _ & _ & Hs & He).
  repeat split; try assumption; unfold Text.strip.
  - apply rstrip_no_lf. apply lstrip_lf_only_last. exact Hlf.
  - apply rstrip_keeps_out. apply lstrip_keeps_out. exact Hcr.
Qed.

(** X13. Every prompt of a loaded pool is clean: not empty, without
    whitespace at either end, and without a line break inside, whatever the
    file held.  So a pool that is written back one prompt per line and loaded
    again is the same pool. *)
Theorem loaded_prompts_are_clean (fs : filesystem) (path : string) :
  Forall prompt_ok (load_dataset fs path)
  /\ (forall fs' path',
        fs' path' = Some (dataset_text (load_dataset fs path)) ->
        load_dataset fs' path' = load_dataset fs path).
Proof.
  assert (Hclean : Forall prompt_ok (load_dataset fs path)).
  { unfold load_dataset. destruct (fs path) as [text|]; [| constructor].
    pose proof (file_lines_lf_only_last (Text.universal_newlines text)) as Hlf.
    pose proof (file_lines_keep_out Text.CR _
                  (universal_newlines_no_cr_upto _ text (le_n _))) as Hcr.
    induction (Text.file_lines (Text.universal_newlines text)) as [|line lines IH];
      simpl; [constructor |].
    inversion Hlf; subst. inversion Hcr; subst.
    destruct (Text.truthy (Text.strip line)) eqn:Ht; [| apply IH; assumption].
    constructor; [| apply IH; assumption].
    apply stripped_line_ok; try assumption.
    intros E. rewrite E in Ht. discriminate. }
  split; [exact Hclean |].
  intros fs' path' Hread. apply load_dataset_text; assumption.
Qed.

(** ** Instances of the general lemmas on runs *)

Lemma run_can_complete_witness :
  exists rest s',
    run_final (init fs1 "http://h/generate" 2 1 "prompts.txt") 10
      ([Enter 1 7 0 0; Tick 2] ++ rest) = Some s'.
Proof.
  destruct (run_to (init fs1 "http://h/generate" 2 1 "prompts.txt") 10 [Enter 1 7 0 0; Tick 2])
    as [s|] eqn:Hrun; [| vm_compute in Hrun; discriminate].
  apply (run_can_complete (init fs1 "http://h/generate" 2 1 "prompts.txt") 10
           [Enter 1 7 0 0; Tick 2] s); [simpl; lia | exact Hrun].
Defined.

Lemma average_time_at_run_end_witness :
  exists s,
    run_final (init fs1 "http://h/generate" 2 1 "prompts.txt") 10 sched1 = Some s
    /\ (average_time (self (process s))
        == sum_elapsed everything (outcomes (log (process s)))
           / inject_Z (count is_success (log (process s))))%Q.
Proof.
  destruct (run_final (init fs1 "http://h/generate" 2 1 "prompts.txt") 10 sched1)
    as [s|] eqn:Hrun; [| vm_compute in Hrun; discriminate].
  exists s. split; [reflexivity |].
  destruct (average_time_at_run_end _ _ _ _ _ _ _ _ Hrun) as [H _].
  apply H. vm_compute in Hrun. injection Hrun as <-. reflexivity.
Defined.
